(** * WinPR file handles (winpr/libwinpr/file/file.c)

    A shallow embedding of the POSIX side of WinPR's file-handle
    implementation: the open-mode resolver [FileGetMode], the handle record
    [WINPR_FILE] with its operations (close, descriptor, read, write, size,
    truncate, seek, lock, unlock, set-time), and path-based construction
    [FileCreateFileA].

    Conventions.
    - C integers are [Z]; a [DWORD] result is reduced modulo [2^32], a
      [UINT64] computation modulo [2^64], where the source converts.
    - The handle records and the strings obtained from [calloc] and
      [_strdup] live in two explicit heaps ([gmap]s from addresses); [free]
      deletes the entry.  Dereferencing an address that is not live is
      undefined behaviour: the operation has no result ([None]).
    - The C library and the operating system are an interface, [Libc], over
      an abstract state: every theorem holds for every implementation of it.
      [sim] is one small concrete implementation, used to run the
      operations on concrete inputs.
    - Constants of headers that are not part of file.c are the fields of
      [Headers]; [posix_headers] gives them the values they have in WinPR
      and on Linux. *)

From stdpp Require Import gmap strings pretty.

Open Scope Z_scope.

(** ** Constants of the included headers *)

Class Headers := {
  (* winpr/handle.h *)
  HANDLE_TYPE_FILE : Z;
  WINPR_FD_READ : Z;
  (* winpr/error.h *)
  ERROR_INVALID_HANDLE : Z;
  ERROR_NOT_ENOUGH_MEMORY : Z;
  ERROR_NO_DATA : Z;
  (* winpr/file.h *)
  GENERIC_WRITE : Z;
  FILE_SHARE_READ : Z;
  FILE_SHARE_WRITE : Z;
  CREATE_NEW : Z;
  CREATE_ALWAYS : Z;
  OPEN_EXISTING : Z;
  OPEN_ALWAYS : Z;
  TRUNCATE_EXISTING : Z;
  FILE_BEGIN : Z;
  FILE_CURRENT : Z;
  FILE_END : Z;
  INVALID_SET_FILE_POINTER : Z;
  INVALID_FILE_SIZE : Z;
  LOCKFILE_FAIL_IMMEDIATELY : Z;
  LOCKFILE_EXCLUSIVE_LOCK : Z;
  (* stdio.h, errno.h, sys/file.h, sys/stat.h *)
  SEEK_SET : Z;
  SEEK_CUR : Z;
  SEEK_END : Z;
  _IONBF : Z;
  EWOULDBLOCK : Z;
  LOCK_SH : Z;
  LOCK_EX : Z;
  LOCK_NB : Z;
  LOCK_UN : Z;
  UTIME_NOW : Z;
  UTIME_OMIT : Z
}.

(** The values in WinPR's headers (those of the Windows API, where it has
    them) and in the headers of Linux with glibc. *)
Definition posix_headers : Headers := {|
  HANDLE_TYPE_FILE := 10;
  WINPR_FD_READ := 1;
  ERROR_INVALID_HANDLE := 6;
  ERROR_NOT_ENOUGH_MEMORY := 8;
  ERROR_NO_DATA := 232;
  GENERIC_WRITE := 0x40000000;
  FILE_SHARE_READ := 1;
  FILE_SHARE_WRITE := 2;
  CREATE_NEW := 1;
  CREATE_ALWAYS := 2;
  OPEN_EXISTING := 3;
  OPEN_ALWAYS := 4;
  TRUNCATE_EXISTING := 5;
  FILE_BEGIN := 0;
  FILE_CURRENT := 1;
  FILE_END := 2;
  INVALID_SET_FILE_POINTER := 0xFFFFFFFF;
  INVALID_FILE_SIZE := 0xFFFFFFFF;
  LOCKFILE_FAIL_IMMEDIATELY := 1;
  LOCKFILE_EXCLUSIVE_LOCK := 2;
  SEEK_SET := 0;
  SEEK_CUR := 1;
  SEEK_END := 2;
  _IONBF := 2;
  EWOULDBLOCK := 11;
  LOCK_SH := 1;
  LOCK_EX := 2;
  LOCK_NB := 4;
  LOCK_UN := 8;
  UTIME_NOW := 1073741823;
  UTIME_OMIT := 1073741822
|}.

(** The case labels of the [switch] in [FileGetMode]; a C compiler rejects
    a [switch] with two equal labels. *)
Definition dispositions `{Headers} : list Z :=
  [CREATE_ALWAYS; CREATE_NEW; OPEN_ALWAYS; OPEN_EXISTING; TRUNCATE_EXISTING].

(** ** Mode resolver *)

Section Mode.
Context `{Headers}.

(** [FileGetMode]: the [fopen] mode and the value stored in [*create].
    [writeable] is a [BOOL] holding [dwDesiredAccess & GENERIC_WRITE]; it is
    tested for being non-zero. *)
Definition FileGetMode (dwDesiredAccess dwCreationDisposition : Z) : string * bool :=
  let writeable := Z.land dwDesiredAccess GENERIC_WRITE in
  if dwCreationDisposition =? CREATE_ALWAYS then
    (if writeable =? 0 then "rwb" else "wb+", true)
  else if dwCreationDisposition =? CREATE_NEW then ("wb+", true)
  else if dwCreationDisposition =? OPEN_ALWAYS then ("rb+", true)
  else if dwCreationDisposition =? OPEN_EXISTING then ("rb+", false)
  else if dwCreationDisposition =? TRUNCATE_EXISTING then ("wb+", false)
  else ("", false).

End Mode.

(** ** Handles, records and the world *)

(** A [FILE*] stream, by identity; an address of the heap. *)
Abbreviation FILE := positive (only parsing).
Abbreviation addr := positive (only parsing).

(** A [HANDLE] is a [void*]: NULL, the constant [INVALID_HANDLE_VALUE]
    (all bits set, never the address of an object), or the address of a
    handle record. *)
Inductive HANDLE := NULL | INVALID_HANDLE_VALUE | Ptr (a : addr).
Arguments Ptr a%_positive.

(** A pointer argument of which the code only tests whether it is NULL, or
    through which it only stores ([LPOVERLAPPED], [LPDWORD], [PLONG]). *)
Inductive pointer := null | nonnull.

(** The two operation tables of file.c, by name ([pFile->ops = &fileOps]). *)
Inductive HANDLE_OPS := fileOps | shmOps.

(** The operations a table can bind, in the order of [HANDLE_OPS]' slots. *)
Inductive Operation :=
  | IsHandled | CloseHandle | GetFd | CleanupHandle
  | ReadFile | ReadFileEx | ReadFileScatter
  | WriteFile | WriteFileEx | WriteFileGather
  | GetFileSize | FlushFileBuffers | SetEndOfFile
  | SetFilePointer | SetFilePointerEx
  | LockFile | LockFileEx | UnlockFile | UnlockFileEx | SetFileTime.

(** Whether a slot of the table holds a function (it is NULL otherwise). *)
Definition bound (t : HANDLE_OPS) (op : Operation) : bool :=
  match t, op with
  | _, (IsHandled | CloseHandle | GetFd | ReadFile | WriteFile) => true
  | fileOps, (GetFileSize | SetEndOfFile | SetFilePointer
              | LockFileEx | UnlockFile | UnlockFileEx | SetFileTime) => true
  | _, _ => false
  end.

(** [struct winpr_file] (file.h): the handle header [Type], [Mode], [ops] and
    the fields file.c reads and writes.  [lpFileName] points into the heap of
    strings. *)
Record WINPR_FILE := {
  Type_ : Z;
  Mode : Z;
  ops : option HANDLE_OPS;
  fp : option FILE;
  lpFileName : option addr;
  dwOpenMode : Z;
  dwShareMode : Z;
  dwFlagsAndAttributes : Z;
  lpSecurityAttributes : Z;
  dwCreationDisposition : Z;
  hTemplateFile : HANDLE;
  bLocked : bool
}.

(** What [calloc(1, sizeof(WINPR_FILE))] returns: all fields zero. *)
Definition zeroed : WINPR_FILE := {|
  Type_ := 0; Mode := 0; ops := None; fp := None; lpFileName := None;
  dwOpenMode := 0; dwShareMode := 0; dwFlagsAndAttributes := 0;
  lpSecurityAttributes := 0; dwCreationDisposition := 0;
  hTemplateFile := NULL; bLocked := false
|}.

Definition set_Type_Mode (t m : Z) (f : WINPR_FILE) : WINPR_FILE :=
  {| Type_ := t; Mode := m; ops := ops f; fp := fp f;
     lpFileName := lpFileName f; dwOpenMode := dwOpenMode f;
     dwShareMode := dwShareMode f; dwFlagsAndAttributes := dwFlagsAndAttributes f;
     lpSecurityAttributes := lpSecurityAttributes f;
     dwCreationDisposition := dwCreationDisposition f;
     hTemplateFile := hTemplateFile f; bLocked := bLocked f |}.

Definition set_ops (o : option HANDLE_OPS) (f : WINPR_FILE) : WINPR_FILE :=
  {| Type_ := Type_ f; Mode := Mode f; ops := o; fp := fp f;
     lpFileName := lpFileName f; dwOpenMode := dwOpenMode f;
     dwShareMode := dwShareMode f; dwFlagsAndAttributes := dwFlagsAndAttributes f;
     lpSecurityAttributes := lpSecurityAttributes f;
     dwCreationDisposition := dwCreationDisposition f;
     hTemplateFile := hTemplateFile f; bLocked := bLocked f |}.

Definition set_fp (s : option FILE) (f : WINPR_FILE) : WINPR_FILE :=
  {| Type_ := Type_ f; Mode := Mode f; ops := ops f; fp := s;
     lpFileName := lpFileName f; dwOpenMode := dwOpenMode f;
     dwShareMode := dwShareMode f; dwFlagsAndAttributes := dwFlagsAndAttributes f;
     lpSecurityAttributes := lpSecurityAttributes f;
     dwCreationDisposition := dwCreationDisposition f;
     hTemplateFile := hTemplateFile f; bLocked := bLocked f |}.

Definition set_lpFileName (p : option addr) (f : WINPR_FILE) : WINPR_FILE :=
  {| Type_ := Type_ f; Mode := Mode f; ops := ops f; fp := fp f;
     lpFileName := p; dwOpenMode := dwOpenMode f;
     dwShareMode := dwShareMode f; dwFlagsAndAttributes := dwFlagsAndAttributes f;
     lpSecurityAttributes := lpSecurityAttributes f;
     dwCreationDisposition := dwCreationDisposition f;
     hTemplateFile := hTemplateFile f; bLocked := bLocked f |}.

Definition set_bLocked (b : bool) (f : WINPR_FILE) : WINPR_FILE :=
  {| Type_ := Type_ f; Mode := Mode f; ops := ops f; fp := fp f;
     lpFileName := lpFileName f; dwOpenMode := dwOpenMode f;
     dwShareMode := dwShareMode f; dwFlagsAndAttributes := dwFlagsAndAttributes f;
     lpSecurityAttributes := lpSecurityAttributes f;
     dwCreationDisposition := dwCreationDisposition f;
     hTemplateFile := hTemplateFile f; bLocked := b |}.

(** The six assignments of [FileCreateFileA] that record its arguments. *)
Definition set_arguments (access share attributes security disposition : Z)
    (template : HANDLE) (f : WINPR_FILE) : WINPR_FILE :=
  {| Type_ := Type_ f; Mode := Mode f; ops := ops f; fp := fp f;
     lpFileName := lpFileName f; dwOpenMode := access;
     dwShareMode := share; dwFlagsAndAttributes := attributes;
     lpSecurityAttributes := security;
     dwCreationDisposition := disposition;
     hTemplateFile := template; bLocked := bLocked f |}.

(** The messages file.c hands to [WLog_ERR], by call site (the formatted
    arguments, a file name and [strerror(errno)], are left out). *)
Inductive LogMsg :=
  | ftruncate_failed
  | fseek_failed
  | ftell_failed
  | overlapping_not_supported
  | already_locked
  | lpOverlapped_not_implemented
  | flock_failed
  | not_locked
  | flock_unlock_failed.

(** ** Times *)

Record FILETIME := { dwLowDateTime : Z; dwHighDateTime : Z }.
Record timespec := { tv_sec : Z; tv_nsec : Z }.
Record timeval := { tv_sec' : Z; tv_usec : Z }.
(** The two fields of [struct stat] that [FileSetFileTime] reads. *)
Record stat := { st_atim : timespec; st_mtim : timespec }.

(** The build configurations of [FileSetFileTime].  [Futimens] is the
    default one ([futimens] on an array of [timespec]); [FreeBSD] and
    [Android] call [utimes] on an array of [timeval].  The [__APPLE__]
    configuration hands an array of [struct timespec] to [futimes], which
    reads it as [struct timeval]: what it does depends on the layout of both
    structures, and it is not part of this model. *)
Inductive Platform := Futimens | FreeBSD | Android.

(** The array handed to the system call: [times] or [timevals]. *)
Inductive TimeArray :=
  | Times (access write : timespec)
  | Timevals (access write : timeval).

(** ** The C library *)

(** The functions of the C library and of POSIX that file.c calls, over a
    state [OS] of the process and its operating system.

    [calloc] and [_strdup] tell whether the allocation succeeds (the heaps
    themselves are in [World]).  [fread size nmemb fp] gives the bytes it
    stored into the buffer and [fwrite data size nmemb fp] the number of
    bytes it took from it, never more than [size * nmemb]; the number of
    items they return follows from it ([items]).  [fstat] gives the status,
    or nothing when it returns -1.  [errno] is the value of [errno]. *)
Class Libc (OS : Type) := {
  calloc : OS → bool * OS;
  _strdup : string → OS → bool * OS;
  fopen : string → string → OS → option FILE * OS;
  freopen : string → string → FILE → OS → option FILE * OS;
  fclose : FILE → OS → OS;
  setvbuf : FILE → Z → OS → OS;
  fileno : FILE → OS → Z;
  ftell : FILE → OS → Z * OS;
  fseek : FILE → Z → Z → OS → Z * OS;
  fread : Z → Z → FILE → OS → list Byte.byte * OS;
  fwrite : list Byte.byte → Z → Z → FILE → OS → Z * OS;
  ftruncate : Z → Z → OS → Z * OS;
  flock : Z → Z → OS → Z * OS;
  fstat : Z → OS → option stat * OS;
  futimens : Z → timespec * timespec → OS → Z * OS;
  utimes : string → timeval * timeval → OS → Z * OS;
  errno : OS → Z;
  fread_length size nmemb s o :
    0 ≤ size → 0 ≤ nmemb → Z.of_nat (length (fread size nmemb s o).1) ≤ size * nmemb;
  fwrite_length data size nmemb s o :
    0 ≤ size → 0 ≤ nmemb → 0 ≤ (fwrite data size nmemb s o).1 ≤ size * nmemb
}.

(** The value [fread] and [fwrite] return: the number of whole items among
    [n] transferred bytes, and zero when [size] is zero (C11 7.21.8). *)
Definition items (size n : Z) : Z := if size =? 0 then 0 else n / size.

(** The process: the live handle records, the live strings, the value of
    [GetLastError], the log, and the C library's state. *)
Record World (OS : Type) := {
  files : gmap addr WINPR_FILE;
  strings : gmap addr string;
  LastError : Z;
  wlog : list LogMsg;
  os : OS
}.
Arguments files {OS} _.
Arguments strings {OS} _.
Arguments LastError {OS} _.
Arguments wlog {OS} _.
Arguments os {OS} _.

(** ** The operations of file.c *)

Section Operations.
Context {OS : Type} `{Headers} `{Libc OS}.

Definition with_os (o : OS) (w : World OS) : World OS :=
  {| files := files w; strings := strings w; LastError := LastError w;
     wlog := wlog w; os := o |}.

Definition SetLastError (e : Z) (w : World OS) : World OS :=
  {| files := files w; strings := strings w; LastError := e;
     wlog := wlog w; os := os w |}.

Definition WLog_ERR (m : LogMsg) (w : World OS) : World OS :=
  {| files := files w; strings := strings w; LastError := LastError w;
     wlog := wlog w ++ [m]; os := os w |}.

(** [*pFile = f], for a record at address [a]. *)
Definition store (a : addr) (f : WINPR_FILE) (w : World OS) : World OS :=
  {| files := <[a := f]> (files w); strings := strings w;
     LastError := LastError w; wlog := wlog w; os := os w |}.

(** A string placed at a new address [p] of the heap. *)
Definition store_string (p : addr) (s : string) (w : World OS) : World OS :=
  {| files := files w; strings := <[p := s]> (strings w);
     LastError := LastError w; wlog := wlog w; os := os w |}.

(** [free(pFile)]: undefined on an address that is not live. *)
Definition free_file (a : addr) (w : World OS) : option (World OS) :=
  _ ← files w !! a;
  Some {| files := delete a (files w); strings := strings w;
          LastError := LastError w; wlog := wlog w; os := os w |}.

(** [free(lpFileName)]: nothing on NULL, undefined on an address that is
    not live. *)
Definition free_string (p : option addr) (w : World OS) : option (World OS) :=
  match p with
  | None => Some w
  | Some q =>
      _ ← strings w !! q;
      Some {| files := files w; strings := delete q (strings w);
              LastError := LastError w; wlog := wlog w; os := os w |}
  end.

(** [*(WINPR_FILE* ) handle], for a handle that is not NULL. *)
Definition deref (w : World OS) (handle : HANDLE) : option WINPR_FILE :=
  match handle with
  | Ptr a => files w !! a
  | _ => None
  end.

(** [FileIsHandled]: [!pFile || (pFile->Type != HANDLE_TYPE_FILE)]. *)
Definition FileIsHandled (w : World OS) (handle : HANDLE) : option (bool * World OS) :=
  match handle with
  | NULL => Some (false, SetLastError ERROR_INVALID_HANDLE w)
  | _ =>
      pFile ← deref w handle;
      if Type_ pFile =? HANDLE_TYPE_FILE then Some (true, w)
      else Some (false, SetLastError ERROR_INVALID_HANDLE w)
  end.

Definition FileGetFd (w : World OS) (handle : HANDLE) : option (Z * World OS) :=
  '(handled, w) ← FileIsHandled w handle;
  if negb handled then Some (-1, w)
  else
    file ← deref w handle;
    s ← fp file;
    Some (fileno s (os w), w).

Definition FileCloseHandle (w : World OS) (handle : HANDLE) : option (bool * World OS) :=
  '(handled, w) ← FileIsHandled w handle;
  if negb handled then Some (false, w)
  else
    match handle with
    | Ptr a =>
        file ← files w !! a;
        let '(file, w) :=
          match fp file with
          | Some s =>
              (* Don't close stdin/stdout/stderr *)
              if fileno s (os w) >? 2 then
                let w := with_os (fclose s (os w)) w in
                let file := set_fp None file in
                (file, store a file w)
              else (file, w)
          | None => (file, w)
          end in
        w ← free_string (lpFileName file) w;
        w ← free_file a w;
        Some (true, w)
    | _ => None
    end.

Definition FileSetEndOfFile (w : World OS) (hFile : HANDLE) : option (bool * World OS) :=
  match hFile with
  | NULL => Some (false, w)
  | _ =>
      pFile ← deref w hFile;
      s ← fp pFile;
      let '(size, o) := ftell s (os w) in
      let '(rc, o) := ftruncate (fileno s o) size o in
      let w := with_os o w in
      if rc <? 0 then Some (false, WLog_ERR ftruncate_failed w)
      else Some (true, w)
  end.

(** The result is a [DWORD]: the [long] that [ftell] returns is reduced
    modulo [2^32]. *)
Definition FileSetFilePointer (w : World OS) (hFile : HANDLE) (lDistanceToMove : Z)
    (lpDistanceToMoveHigh : pointer) (dwMoveMethod : Z) : option (Z * World OS) :=
  match hFile with
  | NULL => Some (INVALID_SET_FILE_POINTER, w)
  | _ =>
      let offset := lDistanceToMove in
      let seek (whence : Z) :=
        pFile ← deref w hFile;
        s ← fp pFile;
        let '(rc, o) := fseek s offset whence (os w) in
        if negb (rc =? 0) then
          Some (INVALID_SET_FILE_POINTER, WLog_ERR fseek_failed (with_os o w))
        else
          let '(pos, o) := ftell s o in
          Some (pos mod 2 ^ 32, with_os o w) in
      if dwMoveMethod =? FILE_BEGIN then seek SEEK_SET
      else if dwMoveMethod =? FILE_END then seek SEEK_END
      else if dwMoveMethod =? FILE_CURRENT then seek SEEK_CUR
      else Some (INVALID_SET_FILE_POINTER, w)
  end.

(** What a read gives back: the [BOOL], the bytes stored into [lpBuffer]
    and the value stored into [*lpNumberOfBytesRead], if any. *)
Record ReadResult := {
  read_status : bool;
  read_buffer : list Byte.byte;
  NumberOfBytesRead : option Z
}.

(** A read that returns FALSE before it reads. *)
Definition refused : ReadResult :=
  {| read_status := false; read_buffer := []; NumberOfBytesRead := None |}.

Definition FileRead (w : World OS) (Object : HANDLE) (nNumberOfBytesToRead : Z)
    (lpNumberOfBytesRead lpOverlapped : pointer) : option (ReadResult * World OS) :=
  match Object with
  | NULL => Some (refused, w)
  | _ =>
      match lpOverlapped with
      | nonnull => Some (refused, WLog_ERR overlapping_not_supported w)
      | null =>
          file ← deref w Object;
          s ← fp file;
          let '(data, o) := fread nNumberOfBytesToRead 1 s (os w) in
          let io_status := items nNumberOfBytesToRead (Z.of_nat (length data)) in
          let w := with_os o w in
          let '(status, w) :=
            if negb (io_status =? 1) then
              (false, if errno o =? EWOULDBLOCK then SetLastError ERROR_NO_DATA w else w)
            else (true, w) in
          Some ({| read_status := status; read_buffer := data;
                   NumberOfBytesRead :=
                     match lpNumberOfBytesRead with
                     | nonnull => Some nNumberOfBytesToRead
                     | null => None
                     end |}, w)
      end
  end.

(** What a write gives back: the [BOOL] and the value stored into
    [*lpNumberOfBytesWritten], if any.  [lpBuffer] is the content of the
    caller's buffer, which holds [nNumberOfBytesToWrite] bytes at least; the
    store through [lpNumberOfBytesWritten] is not guarded. *)
Definition FileWrite (w : World OS) (Object : HANDLE) (lpBuffer : list Byte.byte)
    (nNumberOfBytesToWrite : Z) (lpNumberOfBytesWritten lpOverlapped : pointer)
    : option (bool * option Z * World OS) :=
  match Object with
  | NULL => Some (false, None, w)
  | _ =>
      match lpOverlapped with
      | nonnull => Some (false, None, WLog_ERR overlapping_not_supported w)
      | null =>
          file ← deref w Object;
          s ← fp file;
          if Z.of_nat (length lpBuffer) <? nNumberOfBytesToWrite then None
          else
            let data := take (Z.to_nat nNumberOfBytesToWrite) lpBuffer in
            let '(written, o) := fwrite data nNumberOfBytesToWrite 1 s (os w) in
            let io_status := items nNumberOfBytesToWrite written in
            let w := with_os o w in
            if negb (io_status =? 1) then Some (false, None, w)
            else
              match lpNumberOfBytesWritten with
              | nonnull => Some (true, Some nNumberOfBytesToWrite, w)
              | null => None
              end
      end
  end.

(** The result is a [DWORD], with the value stored into [*lpFileSizeHigh],
    if any. *)
Definition FileGetFileSize (w : World OS) (Object : HANDLE) (lpFileSizeHigh : pointer)
    : option (Z * option Z * World OS) :=
  match Object with
  | NULL => Some (0, None, w)
  | _ =>
      file ← deref w Object;
      s ← fp file;
      let '(cur, o) := ftell s (os w) in
      if cur <? 0 then Some (INVALID_FILE_SIZE, None, WLog_ERR ftell_failed (with_os o w))
      else
        let '(rc, o) := fseek s 0 SEEK_END o in
        if negb (rc =? 0) then
          Some (INVALID_FILE_SIZE, None, WLog_ERR fseek_failed (with_os o w))
        else
          let '(size, o) := ftell s o in
          if size <? 0 then
            Some (INVALID_FILE_SIZE, None, WLog_ERR ftell_failed (with_os o w))
          else
            let '(rc, o) := fseek s cur SEEK_SET o in
            if negb (rc =? 0) then
              Some (INVALID_FILE_SIZE, None, WLog_ERR ftell_failed (with_os o w))
            else
              Some (size mod 2 ^ 32,
                    match lpFileSizeHigh with nonnull => Some 0 | null => None end,
                    with_os o w)
  end.

Definition FileLockFileEx (w : World OS) (hFile : HANDLE) (dwFlags dwReserved
    nNumberOfBytesToLockLow nNumberOfBytesToLockHigh : Z) (lpOverlapped : pointer)
    : option (bool * World OS) :=
  match hFile with
  | NULL => Some (false, w)
  | Ptr a =>
      pFile ← files w !! a;
      if bLocked pFile then Some (false, WLog_ERR already_locked w)
      else
        match lpOverlapped with
        | nonnull => Some (false, WLog_ERR lpOverlapped_not_implemented w)
        | null =>
            let lock :=
              if negb (Z.land dwFlags LOCKFILE_EXCLUSIVE_LOCK =? 0) then LOCK_EX
              else LOCK_SH in
            let lock :=
              if negb (Z.land dwFlags LOCKFILE_FAIL_IMMEDIATELY =? 0) then Z.lor lock LOCK_NB
              else lock in
            s ← fp pFile;
            let '(rc, o) := flock (fileno s (os w)) lock (os w) in
            let w := with_os o w in
            if rc <? 0 then Some (false, WLog_ERR flock_failed w)
            else Some (true, store a (set_bLocked true pFile) w)
        end
  | INVALID_HANDLE_VALUE => None
  end.

Definition FileUnlockFile (w : World OS) (hFile : HANDLE) (dwFileOffsetLow
    dwFileOffsetHigh nNumberOfBytesToUnlockLow nNumberOfBytesToUnlockHigh : Z)
    : option (bool * World OS) :=
  match hFile with
  | NULL => Some (false, w)
  | _ =>
      pFile ← deref w hFile;
      if negb (bLocked pFile) then Some (false, WLog_ERR not_locked w)
      else
        s ← fp pFile;
        let '(rc, o) := flock (fileno s (os w)) LOCK_UN (os w) in
        let w := with_os o w in
        if rc <? 0 then Some (false, WLog_ERR flock_unlock_failed w)
        else Some (true, w)
  end.

Definition FileUnlockFileEx (w : World OS) (hFile : HANDLE) (dwReserved
    nNumberOfBytesToUnlockLow nNumberOfBytesToUnlockHigh : Z) (lpOverlapped : pointer)
    : option (bool * World OS) :=
  match hFile with
  | NULL => Some (false, w)
  | _ =>
      pFile ← deref w hFile;
      if negb (bLocked pFile) then Some (false, WLog_ERR not_locked w)
      else
        match lpOverlapped with
        | nonnull => Some (false, WLog_ERR lpOverlapped_not_implemented w)
        | null =>
            s ← fp pFile;
            let '(rc, o) := flock (fileno s (os w)) LOCK_UN (os w) in
            let w := with_os o w in
            if rc <? 0 then Some (false, WLog_ERR flock_unlock_failed w)
            else Some (true, w)
        end
  end.

(** *** Timestamps *)

Definition EPOCH_DIFF : Z := 11644473600.

(** Arithmetic on [UINT64] wraps around. *)
Definition UINT64 (z : Z) : Z := z mod 2 ^ 64.

(** [((UINT64)ft->dwHighDateTime) << 32 | ft->dwLowDateTime] *)
Definition FILETIME_value (ft : FILETIME) : Z :=
  Z.lor (UINT64 (Z.shiftl (UINT64 (dwHighDateTime ft)) 32)) (dwLowDateTime ft).

(** The [FILETIME] that holds the 64-bit count [T] of 100 ns ticks. *)
Definition FILETIME_of_ticks (T : Z) : FILETIME :=
  {| dwLowDateTime := T mod 2 ^ 32; dwHighDateTime := T / 2 ^ 32 |}.

(** The [else] branches of [FileSetFileTime], for a time that is given:
    [tmp -= EPOCH_DIFF; tmp /= 10ULL;] and then, in the default
    configuration, [tv_sec = tmp / 10000000ULL; tv_nsec = tmp % 10000000ULL]. *)
Definition timespec_of_FILETIME (ft : FILETIME) : timespec :=
  let tmp := FILETIME_value ft in
  let tmp := UINT64 (tmp - EPOCH_DIFF) in
  let tmp := tmp / 10 in
  {| tv_sec := tmp / 10000000; tv_nsec := tmp mod 10000000 |}.

(** The same under [ANDROID] or [__FreeBSD__]: [tmp /= 10000ULL;
    tv_sec = tmp / 10000ULL; tv_usec = tmp % 10000ULL]. *)
Definition timeval_of_FILETIME (ft : FILETIME) : timeval :=
  let tmp := FILETIME_value ft in
  let tmp := UINT64 (tmp - EPOCH_DIFF) in
  let tmp := tmp / 10 in
  let tmp := tmp / 10000 in
  {| tv_sec' := tmp / 10000; tv_usec := tmp mod 10000 |}.

(** [TIMESPEC_TO_TIMEVAL] of sys/time.h: a division of [long]s. *)
Definition TIMESPEC_TO_TIMEVAL (ts : timespec) : timeval :=
  {| tv_sec' := tv_sec ts; tv_usec := tv_nsec ts ÷ 1000 |}.

(** One element of [times] in the default configuration. *)
Definition times_entry (lpTime : option FILETIME) : timespec :=
  match lpTime with
  | None => {| tv_sec := UTIME_OMIT; tv_nsec := UTIME_OMIT |}
  | Some ft => timespec_of_FILETIME ft
  end.

(** One element of [timevals]; [current] is the time [fstat] stored in
    [buf], [st_atim] or [st_mtim].  Under [ANDROID] the nanoseconds are
    divided by [1000UL], as an [unsigned long]. *)
Definition timevals_entry (p : Platform) (current : timespec)
    (lpTime : option FILETIME) : timeval :=
  match lpTime with
  | None =>
      match p with
      | Android => {| tv_sec' := tv_sec current; tv_usec := UINT64 (tv_nsec current) / 1000 |}
      | _ => TIMESPEC_TO_TIMEVAL current
      end
  | Some ft => timeval_of_FILETIME ft
  end.

(** The array that [FileSetFileTime] hands to the system call. *)
Definition FileSetFileTime_array (p : Platform) (buf : stat)
    (lpLastAccessTime lpLastWriteTime : option FILETIME) : TimeArray :=
  match p with
  | Futimens => Times (times_entry lpLastAccessTime) (times_entry lpLastWriteTime)
  | _ => Timevals (timevals_entry p (st_atim buf) lpLastAccessTime)
                  (timevals_entry p (st_mtim buf) lpLastWriteTime)
  end.

(** [FileSetFileTime] in configuration [p].  [lpCreationTime] is not read. *)
Definition FileSetFileTime (p : Platform) (w : World OS) (hFile : HANDLE)
    (lpCreationTime lpLastAccessTime lpLastWriteTime : option FILETIME)
    : option (bool * World OS) :=
  match hFile with
  | NULL => Some (false, w)
  | _ =>
      pFile ← deref w hFile;
      s ← fp pFile;
      match p with
      | Futimens =>
          let times := (times_entry lpLastAccessTime, times_entry lpLastWriteTime) in
          let '(rc, o) := futimens (fileno s (os w)) times (os w) in
          Some (rc =? 0, with_os o w)
      | _ =>
          let '(buf, o) := fstat (fileno s (os w)) (os w) in
          match buf with
          | None => Some (false, with_os o w)
          | Some buf =>
              let timevals := (timevals_entry p (st_atim buf) lpLastAccessTime,
                               timevals_entry p (st_mtim buf) lpLastWriteTime) in
              (* [utimes(pFile->lpFileName, timevals)], for a name that is a
                 live string *)
              name ← lpFileName pFile;
              name ← strings w !! name;
              let '(rc, o) := utimes name timevals o in
              Some (rc =? 0, with_os o w)
          end
      end
  end.

(** The system call of [FileSetFileTime], by the array it is given:
    [futimens(fd, times)] or [utimes(name, timevals)]. *)
Definition set_times (array : TimeArray) (fd : Z) (name : string) (o : OS) : Z * OS :=
  match array with
  | Times access write => futimens fd (access, write) o
  | Timevals access write => utimes name (access, write) o
  end.

(** *** Construction *)

(** [WINPR_HANDLE_SET_TYPE_AND_MODE] of handle.h stores the type and the
    mode into the handle's header. *)
Definition WINPR_HANDLE_SET_TYPE_AND_MODE (type mode : Z) (f : WINPR_FILE) : WINPR_FILE :=
  set_Type_Mode type mode f.

(** [pFile->field = value], as a change [g] of the record at [a]. *)
Definition assign (a : addr) (g : WINPR_FILE → WINPR_FILE) (w : World OS) : option (World OS) :=
  f ← files w !! a;
  Some (store a (g f) w).

(** The end of [FileCreateFileA], from [setvbuf] on: [s] is the local [fp]. *)
Definition FileCreateFileA_share (w : World OS) (pFile : addr) (s : FILE)
    (dwShareMode : Z) : option (HANDLE * World OS) :=
  let w := with_os (setvbuf s _IONBF (os w)) w in
  let lock := 0 in
  let lock := if negb (Z.land dwShareMode FILE_SHARE_READ =? 0) then LOCK_SH else lock in
  let lock := if negb (Z.land dwShareMode FILE_SHARE_WRITE =? 0) then LOCK_EX else lock in
  if negb (Z.land dwShareMode (Z.lor FILE_SHARE_READ FILE_SHARE_WRITE) =? 0) then
    file ← files w !! pFile;
    stream ← fp file;
    let '(rc, o) := flock (fileno stream (os w)) lock (os w) in
    let w := with_os o w in
    if rc <? 0 then
      '(_, w) ← FileCloseHandle (WLog_ERR flock_failed w) (Ptr pFile);
      Some (INVALID_HANDLE_VALUE, w)
    else
      w ← assign pFile (set_bLocked true) w;
      Some (Ptr pFile, w)
  else Some (Ptr pFile, w).

(** The middle of [FileCreateFileA], from [if (NULL == fp)] on: [stream] is
    the local [fp]. *)
Definition FileCreateFileA_open (w : World OS) (pFile : addr) (mode : string)
    (stream : option FILE) (dwShareMode : Z) : option (HANDLE * World OS) :=
  '(stream, w) ←
    match stream with
    | None =>
        file ← files w !! pFile;
        name ← lpFileName file;
        path ← strings w !! name;
        let '(stream, o) := fopen path mode (os w) in
        Some (stream, with_os o w)
    | Some _ => Some (stream, w)
    end;
  w ← assign pFile (set_fp stream) w;
  match stream with
  | None =>
      (* This case can occur when trying to open a
         not existing file without create flag. *)
      file ← files w !! pFile;
      w ← free_string (lpFileName file) w;
      w ← free_file pFile w;
      Some (INVALID_HANDLE_VALUE, w)
  | Some s => FileCreateFileA_share w pFile s dwShareMode
  end.

(** [fileName] is the string that the argument [lpFileName] points to; the
    record is placed at an address that is not in use. *)
Definition FileCreateFileA (w : World OS) (fileName : string)
    (dwDesiredAccess dwShareMode lpSecurityAttributes dwCreationDisposition
     dwFlagsAndAttributes : Z) (hTemplateFile : HANDLE) : option (HANDLE * World OS) :=
  let '(mode, create) := FileGetMode dwDesiredAccess dwCreationDisposition in
  let '(allocated, o) := calloc (os w) in
  let w := with_os o w in
  if negb allocated then
    Some (INVALID_HANDLE_VALUE, SetLastError ERROR_NOT_ENOUGH_MEMORY w)
  else
    let pFile := fresh (dom (files w)) in
    let w := store pFile zeroed w in
    w ← assign pFile (WINPR_HANDLE_SET_TYPE_AND_MODE HANDLE_TYPE_FILE WINPR_FD_READ) w;
    w ← assign pFile (set_ops (Some fileOps)) w;
    let '(allocated, o) := _strdup fileName (os w) in
    let w := with_os o w in
    if negb allocated then
      w ← assign pFile (set_lpFileName None) w;
      w ← free_file pFile (SetLastError ERROR_NOT_ENOUGH_MEMORY w);
      Some (INVALID_HANDLE_VALUE, w)
    else
      let name := fresh (dom (strings w)) in
      let w := store_string name fileName w in
      w ← assign pFile (set_lpFileName (Some name)) w;
      w ← assign pFile (set_arguments dwDesiredAccess dwShareMode dwFlagsAndAttributes
                          lpSecurityAttributes dwCreationDisposition hTemplateFile) w;
      if create then
        file ← files w !! pFile;
        name ← lpFileName file;
        path ← strings w !! name;
        let '(stream, o) := fopen path "ab" (os w) in
        let w := with_os o w in
        match stream with
        | None =>
            file ← files w !! pFile;
            w ← free_string (lpFileName file) w;
            w ← free_file pFile w;
            Some (INVALID_HANDLE_VALUE, w)
        | Some s =>
            file ← files w !! pFile;
            name ← lpFileName file;
            path ← strings w !! name;
            let '(stream, o) := freopen path mode s (os w) in
            FileCreateFileA_open (with_os o w) pFile mode stream dwShareMode
        end
      else FileCreateFileA_open w pFile mode None dwShareMode.

(** The record that [FileCreateFileA] has built when it opens the file. *)
Definition created_record (name : addr) (access share attributes security disposition : Z)
    (template : HANDLE) : WINPR_FILE :=
  set_arguments access share attributes security disposition template
    (set_lpFileName (Some name)
       (set_ops (Some fileOps)
          (WINPR_HANDLE_SET_TYPE_AND_MODE HANDLE_TYPE_FILE WINPR_FD_READ zeroed))).

(** The calls by which [FileCreateFileA] opens the file, from the state [o]
    of the C library after the two allocations: the stream in [pFile->fp]
    when [setvbuf] is reached, or none when it returns before. *)
Definition FileCreateFileA_stream (create : bool) (mode fileName : string) (o : OS)
    : option FILE * OS :=
  if create then
    let '(stream, o) := fopen fileName "ab" o in
    match stream with
    | None => (None, o)
    | Some s =>
        let '(stream, o) := freopen fileName mode s o in
        match stream with
        | None => fopen fileName mode o
        | Some _ => (stream, o)
        end
    end
  else fopen fileName mode o.

(** The lock that [FileCreateFileA] asks for: exclusive with
    FILE_SHARE_WRITE, shared with FILE_SHARE_READ alone. *)
Definition share_lock (share : Z) : Z :=
  if Z.land share FILE_SHARE_WRITE =? 0 then LOCK_SH else LOCK_EX.

(** *** A handle of another kind *)

(** The record at [a] with its [Type] replaced by [t]: what another
    component of WinPR, with handles of its own kind, would have there. *)
Definition set_Type (t : Z) (f : WINPR_FILE) : WINPR_FILE := set_Type_Mode t (Mode f) f.

Definition retype (t : Z) (a : addr) (w : World OS) : World OS :=
  {| files := alter (set_Type t) a (files w); strings := strings w;
     LastError := LastError w; wlog := wlog w; os := os w |}.

(** The result of an operation, with the record at [a] given type [t]. *)
Definition retyped {R : Type} (t : Z) (a : addr) (result : option (R * World OS))
    : option (R * World OS) :=
  prod_map id (retype t a) <$> result.

(** A handle that [FileIsHandled] rejects. *)
Definition not_handled (w : World OS) (handle : HANDLE) : Prop :=
  handle = NULL ∨
  ∃ a file, handle = Ptr a ∧ files w !! a = Some file ∧ Type_ file ≠ HANDLE_TYPE_FILE.

End Operations.

(** ** What the system calls do to a file's times *)

Section TimesOfAFile.
Context `{Headers}.

(** POSIX [futimens]: an element whose [tv_nsec] is [UTIME_OMIT] leaves the
    time as it is, one whose [tv_nsec] is [UTIME_NOW] sets it to the current
    time, any other sets it to the element; [tv_sec] is ignored in the
    first two cases. *)
Definition futimens_entry (now current entry : timespec) : timespec :=
  if tv_nsec entry =? UTIME_OMIT then current
  else if tv_nsec entry =? UTIME_NOW then now
  else entry.

Definition futimens_effect (now : timespec) (times : timespec * timespec) (st : stat) : stat :=
  {| st_atim := futimens_entry now (st_atim st) times.1;
     st_mtim := futimens_entry now (st_mtim st) times.2 |}.

(** POSIX [utimes]: both times are set, to the given seconds and
    microseconds. *)
Definition timespec_of_timeval (tv : timeval) : timespec :=
  {| tv_sec := tv_sec' tv; tv_nsec := tv_usec tv * 1000 |}.

Definition utimes_effect (timevals : timeval * timeval) (st : stat) : stat :=
  {| st_atim := timespec_of_timeval timevals.1;
     st_mtim := timespec_of_timeval timevals.2 |}.

(** The times of a file after a successful [FileSetFileTime] in
    configuration [p], from its times [st] before (which is also what
    [fstat] stores in [buf]). *)
Definition times_after (p : Platform) (now : timespec) (st : stat)
    (lpLastAccessTime lpLastWriteTime : option FILETIME) : stat :=
  match FileSetFileTime_array p st lpLastAccessTime lpLastWriteTime with
  | Times a m => futimens_effect now (a, m) st
  | Timevals a m => utimes_effect (a, m) st
  end.

(** A time cut down to whole microseconds. *)
Definition microseconds (ts : timespec) : timespec :=
  {| tv_sec := tv_sec ts; tv_nsec := tv_nsec ts / 1000 * 1000 |}.

End TimesOfAFile.

(** ** A small C library *)

(** One file, at any path that exists, read and written through every
    stream; a budget of allocations; a fixed answer of [flock]. *)
Record SimOS := {
  sim_memory : nat;
  sim_paths : list string;
  sim_streams : gmap FILE Z;
  sim_content : list Byte.byte;
  sim_position : Z;
  sim_flock : Z;
  sim_errno : Z;
  sim_status : stat;
  sim_clock : timespec
}.

Section Sim.
Context `{Headers}.

Definition sim_allocate (o : SimOS) : bool * SimOS :=
  match sim_memory o with
  | O => (false, o)
  | S n =>
      (true, {| sim_memory := n; sim_paths := sim_paths o; sim_streams := sim_streams o;
                sim_content := sim_content o; sim_position := sim_position o;
                sim_flock := sim_flock o; sim_errno := sim_errno o;
                sim_status := sim_status o; sim_clock := sim_clock o |})
  end.

Definition sim_with_streams (m : gmap FILE Z) (paths : list string) (o : SimOS) : SimOS :=
  {| sim_memory := sim_memory o; sim_paths := paths; sim_streams := m;
     sim_content := sim_content o; sim_position := sim_position o;
     sim_flock := sim_flock o; sim_errno := sim_errno o;
     sim_status := sim_status o; sim_clock := sim_clock o |}.

Definition sim_with_content (c : list Byte.byte) (pos : Z) (o : SimOS) : SimOS :=
  {| sim_memory := sim_memory o; sim_paths := sim_paths o; sim_streams := sim_streams o;
     sim_content := c; sim_position := pos;
     sim_flock := sim_flock o; sim_errno := sim_errno o;
     sim_status := sim_status o; sim_clock := sim_clock o |}.

Definition sim_with_status (st : stat) (o : SimOS) : SimOS :=
  {| sim_memory := sim_memory o; sim_paths := sim_paths o; sim_streams := sim_streams o;
     sim_content := sim_content o; sim_position := sim_position o;
     sim_flock := sim_flock o; sim_errno := sim_errno o;
     sim_status := st; sim_clock := sim_clock o |}.

(** The lowest descriptor that no open stream uses. *)
Definition sim_lowest (m : gmap FILE Z) : Z :=
  let used := (map_to_list m).*2 in
  default (Z.of_nat (length used))
    (find (λ fd, bool_decide (fd ∉ used)) (Z.of_nat <$> seq 0 (length used))).

(** Whether mode [mode] opens [name]: a mode that begins with [r] needs the
    file; the empty mode opens nothing. *)
Definition sim_opens (name mode : string) (o : SimOS) : bool :=
  negb (bool_decide (mode = "")) &&
  (negb (String.prefix "r" mode) || bool_decide (name ∈ sim_paths o)).

Definition sim_open (s : FILE) (name mode : string) (o : SimOS) : option FILE * SimOS :=
  if sim_opens name mode o then
    (Some s, sim_with_streams (<[s := sim_lowest (sim_streams o)]> (sim_streams o))
               (if bool_decide (name ∈ sim_paths o) then sim_paths o else name :: sim_paths o) o)
  else (None, o).

Definition sim_fclose (s : FILE) (o : SimOS) : SimOS :=
  sim_with_streams (delete s (sim_streams o)) (sim_paths o) o.

Definition sim_fseek (s : FILE) (offset whence : Z) (o : SimOS) : Z * SimOS :=
  let base :=
    if whence =? SEEK_SET then 0
    else if whence =? SEEK_CUR then sim_position o
    else Z.of_nat (length (sim_content o)) in
  if base + offset <? 0 then (-1, o)
  else (0, sim_with_content (sim_content o) (base + offset) o).

Definition sim_fread (size nmemb : Z) (s : FILE) (o : SimOS) : list Byte.byte * SimOS :=
  let data := take (Z.to_nat (size * nmemb)) (drop (Z.to_nat (sim_position o)) (sim_content o)) in
  (data, sim_with_content (sim_content o) (sim_position o + Z.of_nat (length data)) o).

Definition sim_fwrite (data : list Byte.byte) (size nmemb : Z) (s : FILE) (o : SimOS) : Z * SimOS :=
  let data := take (Z.to_nat (size * nmemb)) data in
  let pos := Z.to_nat (sim_position o) in
  (Z.of_nat (length data),
   sim_with_content (take pos (sim_content o) ++ data ++ drop (pos + length data) (sim_content o))
     (sim_position o + Z.of_nat (length data)) o).

Definition sim_fstat (fd : Z) (o : SimOS) : option stat * SimOS :=
  if bool_decide (fd ∈ (map_to_list (sim_streams o)).*2) then (Some (sim_status o), o)
  else (None, o).

Lemma sim_fread_length size nmemb s o :
  0 ≤ size → 0 ≤ nmemb → Z.of_nat (length (sim_fread size nmemb s o).1) ≤ size * nmemb.
Proof.
  intros Hs Hn. unfold sim_fread. cbn [fst].
  rewrite length_take. lia.
Qed.

Lemma sim_fwrite_length data size nmemb s o :
  0 ≤ size → 0 ≤ nmemb → 0 ≤ (sim_fwrite data size nmemb s o).1 ≤ size * nmemb.
Proof.
  intros Hs Hn. unfold sim_fwrite. cbn [fst].
  rewrite length_take. lia.
Qed.

Definition sim : Libc SimOS := {|
  calloc := sim_allocate;
  _strdup := λ _, sim_allocate;
  fopen := λ name mode o, sim_open (fresh (dom (sim_streams o))) name mode o;
  freopen := λ name mode s o, sim_open s name mode (sim_fclose s o);
  fclose := sim_fclose;
  setvbuf := λ _ _ o, o;
  fileno := λ s o, default (-1) (sim_streams o !! s);
  ftell := λ _ o, (sim_position o, o);
  fseek := sim_fseek;
  fread := sim_fread;
  fwrite := sim_fwrite;
  ftruncate := λ _ size o, (0, sim_with_content (take (Z.to_nat size) (sim_content o)) (sim_position o) o);
  flock := λ _ _ o, (sim_flock o, o);
  fstat := sim_fstat;
  futimens := λ _ times o, (0, sim_with_status (futimens_effect (sim_clock o) times (sim_status o)) o);
  utimes := λ _ timevals o, (0, sim_with_status (utimes_effect timevals (sim_status o)) o);
  errno := sim_errno;
  fread_length := sim_fread_length;
  fwrite_length := sim_fwrite_length
|}.

End Sim.

(** ** A process to run the operations in *)

(** Three standard streams (1, 2, 3 on descriptors 0, 1, 2) and a stream 4
    on descriptor 3; a file of three bytes at "log.txt"; two allocations
    left; [flock] succeeds. *)
Definition example_os : SimOS := {|
  sim_memory := 2;
  sim_paths := ["log.txt"];
  sim_streams := {[ 1%positive := 0; 2%positive := 1; 3%positive := 2; 4%positive := 3 ]};
  sim_content := [Byte.x61; Byte.x62; Byte.x63];
  sim_position := 0;
  sim_flock := 0;
  sim_errno := 0;
  sim_status := {| st_atim := {| tv_sec := 100; tv_nsec := 1 |};
                   st_mtim := {| tv_sec := 200; tv_nsec := 2 |} |};
  sim_clock := {| tv_sec := 300; tv_nsec := 3 |}
|}.

Definition example_record (type : Z) (stream : FILE) (name : addr) : WINPR_FILE := {|
  Type_ := type; Mode := 1; ops := Some fileOps; fp := Some stream;
  lpFileName := Some name; dwOpenMode := 0; dwShareMode := 0;
  dwFlagsAndAttributes := 0; lpSecurityAttributes := 0;
  dwCreationDisposition := 3; hTemplateFile := NULL; bLocked := false
|}.

Arguments example_record type%_Z stream%_positive name%_positive.

(** At address 1 a handle on "log.txt" (stream 4, descriptor 3), at 2 a
    handle on the standard output (stream 2, descriptor 1), at 3 a record of
    another type (1, where HANDLE_TYPE_FILE is 10) with the same stream as
    the first. *)
Definition example_world : World SimOS := {|
  files := {[ 1%positive := example_record 10 4 1;
              2%positive := example_record 10 2 2;
              3%positive := example_record 1 4 3 ]};
  strings := {[ 1%positive := "log.txt"; 2%positive := "device_1";
                3%positive := "other" ]};
  LastError := 0;
  wlog := [];
  os := example_os
|}.

(** The same process when [flock] fails. *)
Definition contended_world : World SimOS := {|
  files := files example_world;
  strings := strings example_world;
  LastError := 0;
  wlog := [];
  os := {| sim_memory := 2; sim_paths := ["log.txt"];
           sim_streams := sim_streams example_os;
           sim_content := sim_content example_os; sim_position := 0;
           sim_flock := -1; sim_errno := 11;
           sim_status := sim_status example_os; sim_clock := sim_clock example_os |}
|}.

(** ** Handles on streams that are open already *)

(** More constants: winpr/file.h ([STD_INPUT_HANDLE] and the like are
    [DWORD]s), fcntl.h and errno.h. *)
Class StdioHeaders := {
  STD_INPUT_HANDLE : Z;
  STD_OUTPUT_HANDLE : Z;
  STD_ERROR_HANDLE : Z;
  F_GETFD : Z;
  F_GETFL : Z;
  O_WRONLY : Z;
  EBADF : Z
}.

Definition posix_stdio_headers : StdioHeaders := {|
  STD_INPUT_HANDLE := 0xFFFFFFF6;
  STD_OUTPUT_HANDLE := 0xFFFFFFF5;
  STD_ERROR_HANDLE := 0xFFFFFFF4;
  F_GETFD := 1;
  F_GETFL := 3;
  O_WRONLY := 1;
  EBADF := 9
|}.

(** The three standard streams, [fcntl(fd, cmd)] and [fdopen]. *)
Class Stdio (OS : Type) := {
  stdin : FILE;
  stdout : FILE;
  stderr : FILE;
  fcntl : Z → Z → OS → Z * OS;
  fdopen : Z → string → OS → option FILE * OS
}.

Section Adoption.
Context {OS : Type} `{Headers} `{StdioHeaders} `{Libc OS} `{Stdio OS}.

(** What [_snprintf(name, sizeof(name), "device_%d", fd)] leaves in [name]:
    the seven characters and the decimal digits of an [int] are far fewer
    than the [MAX_PATH] bytes of the buffer. *)
Definition device_name (fd : Z) : string := "device_" +:+ pretty fd.

(** [FileHandle_New]: [stream] is the argument [fp].  The result of
    [_strdup] is stored without a test. *)
Definition FileHandle_New (w : World OS) (stream : FILE) : option (HANDLE * World OS) :=
  let name := device_name (fileno stream (os w)) in
  let '(allocated, o) := calloc (os w) in
  let w := with_os o w in
  if negb allocated then Some (NULL, SetLastError ERROR_NOT_ENOUGH_MEMORY w)
  else
    let pFile := fresh (dom (files w)) in
    let w := store pFile zeroed w in
    w ← assign pFile (set_fp (Some stream)) w;
    w ← assign pFile (set_ops (Some shmOps)) w;
    let '(allocated, o) := _strdup name (os w) in
    let w := with_os o w in
    w ← (if allocated then
           let copy := fresh (dom (strings w)) in
           assign pFile (set_lpFileName (Some copy)) (store_string copy name w)
         else assign pFile (set_lpFileName None) w);
    w ← assign pFile (WINPR_HANDLE_SET_TYPE_AND_MODE HANDLE_TYPE_FILE WINPR_FD_READ) w;
    Some (Ptr pFile, w).

(** [return (HANDLE)pFile], after [if (!pFile) return INVALID_HANDLE_VALUE]. *)
Definition adopted (result : HANDLE * World OS) : HANDLE * World OS :=
  match result.1 with
  | NULL => (INVALID_HANDLE_VALUE, result.2)
  | _ => result
  end.

Definition GetStdHandle (w : World OS) (nStdHandle : Z) : option (HANDLE * World OS) :=
  if nStdHandle =? STD_INPUT_HANDLE then adopted <$> FileHandle_New w stdin
  else if nStdHandle =? STD_OUTPUT_HANDLE then adopted <$> FileHandle_New w stdout
  else if nStdHandle =? STD_ERROR_HANDLE then adopted <$> FileHandle_New w stderr
  else Some (INVALID_HANDLE_VALUE, w).

Definition SetStdHandle (w : World OS) (nStdHandle : Z) (hHandle : HANDLE)
    : option (bool * World OS) :=
  Some (false, w).

Definition SetStdHandleEx (w : World OS) (dwStdHandle : Z) (hNewHandle : HANDLE)
    (phOldHandle : pointer) : option (bool * World OS) :=
  Some (false, w).

Definition IsFileDevice (lpDeviceName : string) : bool := true.

(** The POSIX branch of [GetFileHandleForFileDescriptor]. *)
Definition GetFileHandleForFileDescriptor (w : World OS) (fd : Z)
    : option (HANDLE * World OS) :=
  (* Make sure it's a valid fd *)
  let '(rc, o) := fcntl fd F_GETFD (os w) in
  if (rc =? -1) && (errno o =? EBADF) then Some (INVALID_HANDLE_VALUE, with_os o w)
  else
    let '(flags, o) := fcntl fd F_GETFL o in
    if flags =? -1 then Some (INVALID_HANDLE_VALUE, with_os o w)
    else
      let '(stream, o) :=
        if negb (Z.land flags O_WRONLY =? 0) then fdopen fd "wb" o
        else fdopen fd "rb" o in
      match stream with
      | None => Some (INVALID_HANDLE_VALUE, with_os o w)
      | Some s =>
          let w := with_os (setvbuf s _IONBF o) w in
          adopted <$> FileHandle_New w s
      end.

(** The flags that [GetFileHandleForFileDescriptor] reads, with the state
    of the C library after the two calls of [fcntl], and the mode it derives
    from them. *)
Definition descriptor_flags (fd : Z) (o : OS) : Z * OS :=
  fcntl fd F_GETFL (fcntl fd F_GETFD o).2.

Definition descriptor_mode (flags : Z) : string :=
  if Z.land flags O_WRONLY =? 0 then "rb" else "wb".

End Adoption.

(** ** Sequences of calls *)

(** A call of one of the operations that do not free the handle, with its
    arguments but the handle. *)
Inductive Call :=
  | GetFd_call
  | Read_call (nNumberOfBytesToRead : Z) (lpNumberOfBytesRead lpOverlapped : pointer)
  | Write_call (lpBuffer : list Byte.byte) (nNumberOfBytesToWrite : Z)
      (lpNumberOfBytesWritten lpOverlapped : pointer)
  | GetFileSize_call (lpFileSizeHigh : pointer)
  | SetEndOfFile_call
  | SetFilePointer_call (lDistanceToMove : Z) (lpDistanceToMoveHigh : pointer)
      (dwMoveMethod : Z)
  | LockFileEx_call (dwFlags dwReserved low high : Z) (lpOverlapped : pointer)
  | UnlockFile_call (offsetLow offsetHigh low high : Z)
  | UnlockFileEx_call (dwReserved low high : Z) (lpOverlapped : pointer)
  | SetFileTime_call (p : Platform) (creation access write : option FILETIME).

Section Calls.
Context {OS : Type} `{Headers} `{Libc OS}.

(** The world after a call on [handle]; what it returns is dropped. *)
Definition perform (w : World OS) (handle : HANDLE) (c : Call) : option (World OS) :=
  match c with
  | GetFd_call => snd <$> FileGetFd w handle
  | Read_call n count overlapped => snd <$> FileRead w handle n count overlapped
  | Write_call buffer n count overlapped =>
      snd <$> FileWrite w handle buffer n count overlapped
  | GetFileSize_call high => snd <$> FileGetFileSize w handle high
  | SetEndOfFile_call => snd <$> FileSetEndOfFile w handle
  | SetFilePointer_call distance high method =>
      snd <$> FileSetFilePointer w handle distance high method
  | LockFileEx_call flags reserved low high overlapped =>
      snd <$> FileLockFileEx w handle flags reserved low high overlapped
  | UnlockFile_call offsetLow offsetHigh low high =>
      snd <$> FileUnlockFile w handle offsetLow offsetHigh low high
  | UnlockFileEx_call reserved low high overlapped =>
      snd <$> FileUnlockFileEx w handle reserved low high overlapped
  | SetFileTime_call p creation access write =>
      snd <$> FileSetFileTime p w handle creation access write
  end.

(** Calls one after the other, each on a handle of its own. *)
Fixpoint perform_all (w : World OS) (calls : list (HANDLE * Call)) : option (World OS) :=
  match calls with
  | [] => Some w
  | (handle, c) :: calls => w ← perform w handle c; perform_all w calls
  end.

(** What such calls leave of the handles: the strings, and every record
    but for a [bLocked] that has been set. *)
Definition handles_kept (w w' : World OS) : Prop :=
  strings w' = strings w ∧
  ∀ a, files w' !! a = files w !! a ∨
       ∃ file, files w !! a = Some file ∧ files w' !! a = Some (set_bLocked true file).

End Calls.

(** The standard streams of the small C library are its streams 1, 2 and
    3; descriptor 0 is open for reading, 1 and 2 for writing, every other
    for both; [fdopen] makes a new stream on a descriptor that is open. *)
Section SimStdio.
Context `{Headers} `{StdioHeaders}.

Definition sim_with_errno (e : Z) (o : SimOS) : SimOS :=
  {| sim_memory := sim_memory o; sim_paths := sim_paths o; sim_streams := sim_streams o;
     sim_content := sim_content o; sim_position := sim_position o;
     sim_flock := sim_flock o; sim_errno := e;
     sim_status := sim_status o; sim_clock := sim_clock o |}.

Definition sim_is_open (fd : Z) (o : SimOS) : bool :=
  bool_decide (fd ∈ (map_to_list (sim_streams o)).*2).

Definition sim_fcntl (fd cmd : Z) (o : SimOS) : Z * SimOS :=
  if negb (sim_is_open fd o) then (-1, sim_with_errno EBADF o)
  else if cmd =? F_GETFL then
    (if fd =? 0 then 0 else if (fd =? 1) || (fd =? 2) then 1 else 2, o)
  else (0, o).

Definition sim_fdopen (fd : Z) (mode : string) (o : SimOS) : option FILE * SimOS :=
  if sim_is_open fd o then
    let s := fresh (dom (sim_streams o)) in
    (Some s, sim_with_streams (<[s := fd]> (sim_streams o)) (sim_paths o) o)
  else (None, sim_with_errno EBADF o).

Definition sim_stdio : Stdio SimOS := {|
  stdin := 1%positive;
  stdout := 2%positive;
  stderr := 3%positive;
  fcntl := sim_fcntl;
  fdopen := sim_fdopen
|}.

End SimStdio.

(** ** The two tables *)

(** [shmOps], the table of the handles made from a stream, binds the five
    operations every handle has; [fileOps] binds these and seven more. *)
Lemma shmOps_bound op :
  bound shmOps op = true ↔ op ∈ [IsHandled; CloseHandle; GetFd; ReadFile; WriteFile].
Proof.
  split.
  - destruct op; cbn; intros Hop; try discriminate; set_solver.
  - intros Hop. repeat (apply elem_of_cons in Hop as [->|Hop]; [reflexivity|]).
    by apply elem_of_nil in Hop.
Qed.

Lemma shmOps_reduced op : bound shmOps op = true → bound fileOps op = true.
Proof. destruct op; cbn; done. Qed.

Section ModeFacts.
Context `{Headers}.

(** C1.  With pairwise distinct case labels, [FileGetMode] follows the table:
    CREATE_ALWAYS gives "wb+" (truncate, read/write) when the access has
    GENERIC_WRITE and the non-standard "rwb" when it has not, both with
    create-first; CREATE_NEW gives "wb+" with create-first; OPEN_ALWAYS gives
    "rb+" (read/write, contents kept) with create-first; OPEN_EXISTING gives
    "rb+" and TRUNCATE_EXISTING gives "wb+", both without create-first; every
    other disposition gives the empty mode without create-first. *)
Theorem FileGetMode_table (access disposition : Z) :
  NoDup dispositions →
  (disposition = CREATE_ALWAYS → Z.land access GENERIC_WRITE ≠ 0 →
     FileGetMode access disposition = ("wb+", true)) ∧
  (disposition = CREATE_ALWAYS → Z.land access GENERIC_WRITE = 0 →
     FileGetMode access disposition = ("rwb", true)) ∧
  (disposition = CREATE_NEW → FileGetMode access disposition = ("wb+", true)) ∧
  (disposition = OPEN_ALWAYS → FileGetMode access disposition = ("rb+", true)) ∧
  (disposition = OPEN_EXISTING → FileGetMode access disposition = ("rb+", false)) ∧
  (disposition = TRUNCATE_EXISTING → FileGetMode access disposition = ("wb+", false)) ∧
  (disposition ∉ dispositions → FileGetMode access disposition = ("", false)).
Proof.
  unfold dispositions, FileGetMode. intros Hnd.
  repeat match goal with
         | H : NoDup (_ :: _) |- _ => apply NoDup_cons in H; destruct H
         end.
  repeat match goal with
         | H : _ ∉ _ :: _ |- _ => apply not_elem_of_cons in H; destruct H
         end.
  repeat split; intros; subst;
    repeat match goal with
           | H : _ ∉ _ :: _ |- _ => apply not_elem_of_cons in H; destruct H
           end;
    repeat match goal with
           | |- context [?a =? ?b] => destruct (Z.eqb_spec a b); try congruence
           end.
Qed.

End ModeFacts.

Lemma FileGetMode_table_witness :
  NoDup (@dispositions posix_headers) ∧
  @FileGetMode posix_headers 0x40000000 2 = ("wb+", true) ∧
  @FileGetMode posix_headers 0x80000000 2 = ("rwb", true) ∧
  @FileGetMode posix_headers 0 7 = ("", false).
Proof.
  assert (Hnd : NoDup (@dispositions posix_headers))
    by (apply (bool_decide_unpack _); vm_compute; exact I).
  split; [exact Hnd|].
  destruct (@FileGetMode_table posix_headers 0x40000000 2 Hnd) as (Hw & _).
  destruct (@FileGetMode_table posix_headers 0x80000000 2 Hnd) as (_ & Hr & _).
  destruct (@FileGetMode_table posix_headers 0 7 Hnd) as (_ & _ & _ & _ & _ & _ & Ho).
  split; [|split].
  - apply Hw; [reflexivity | vm_compute; congruence].
  - apply Hr; reflexivity.
  - apply Ho. apply (bool_decide_unpack _). vm_compute. exact I.
Defined.

(** ** Facts about the operations *)

Section Facts.
Context {OS : Type} `{Headers} `{Libc OS}.
Implicit Types (w : World OS) (a : addr) (file : WINPR_FILE) (s : FILE).

Lemma FileIsHandled_file w a file :
  files w !! a = Some file → Type_ file = HANDLE_TYPE_FILE →
  FileIsHandled w (Ptr a) = Some (true, w).
Proof.
  intros Hfile Htype. unfold FileIsHandled, deref. rewrite Hfile. cbn.
  rewrite Htype, Z.eqb_refl. reflexivity.
Qed.

Lemma FileIsHandled_other w a file :
  files w !! a = Some file → Type_ file ≠ HANDLE_TYPE_FILE →
  FileIsHandled w (Ptr a) = Some (false, SetLastError ERROR_INVALID_HANDLE w).
Proof.
  intros Hfile Htype. unfold FileIsHandled, deref. rewrite Hfile. cbn.
  destruct (Z.eqb_spec (Type_ file) HANDLE_TYPE_FILE); [contradiction | reflexivity].
Qed.

(** What [FileCloseHandle] does on a live record of type HANDLE_TYPE_FILE
    whose name is NULL or a live string. *)
Lemma FileCloseHandle_run w a file :
  files w !! a = Some file →
  Type_ file = HANDLE_TYPE_FILE →
  (∀ p, lpFileName file = Some p → is_Some (strings w !! p)) →
  ∃ w', FileCloseHandle w (Ptr a) = Some (true, w') ∧
    (∀ s, fp file = Some s → 2 < fileno s (os w) → os w' = fclose s (os w)) ∧
    (∀ s, fp file = Some s → fileno s (os w) ≤ 2 → os w' = os w) ∧
    (fp file = None → os w' = os w) ∧
    files w' = delete a (files w) ∧ files w' !! a = None ∧
    strings w' = match lpFileName file with
                 | Some p => delete p (strings w)
                 | None => strings w
                 end ∧
    LastError w' = LastError w ∧ wlog w' = wlog w.
Proof.
  intros Hfile Htype Hname. unfold FileCloseHandle.
  rewrite (FileIsHandled_file _ _ _ Hfile Htype). cbn. rewrite Hfile. cbn.
  assert (Hfree : ∀ w1, strings w1 = strings w →
            ∃ w2, free_string (lpFileName file) w1 = Some w2 ∧
              files w2 = files w1 ∧ os w2 = os w1 ∧ LastError w2 = LastError w1 ∧
              wlog w2 = wlog w1 ∧
              strings w2 = match lpFileName file with
                           | Some p => delete p (strings w)
                           | None => strings w
                           end).
  { intros w1 Hw1. unfold free_string. destruct (lpFileName file) as [p|].
    - destruct (Hname p eq_refl) as [x Hx]. rewrite Hw1, Hx. cbn.
      eexists. split; [reflexivity|]. cbn. auto.
    - eexists. split; [reflexivity|]. auto. }
  destruct (fp file) as [s|] eqn:Hfp.
  - destruct (Z.gtb_spec (fileno s (os w)) 2) as [Hgt|Hle].
    + change (lpFileName (set_fp None file)) with (lpFileName file).
      destruct (Hfree (store a (set_fp None file) (with_os (fclose s (os w)) w)) eq_refl)
        as (w2 & -> & Hf & Ho & He & Hl & Hs).
      cbn. unfold free_file. rewrite Hf. cbn. rewrite lookup_insert_eq. cbn.
      eexists. split; [reflexivity|]. cbn.
      rewrite delete_insert_eq, lookup_delete_eq, Ho, He, Hl, Hs. cbn.
      repeat split; intros; simplify_eq; try lia; done.
    + destruct (Hfree w eq_refl) as (w2 & -> & Hf & Ho & He & Hl & Hs).
      cbn. unfold free_file. rewrite Hf, Hfile. cbn.
      eexists. split; [reflexivity|]. cbn.
      rewrite lookup_delete_eq, Ho, He, Hl, Hs.
      repeat split; intros; simplify_eq; try lia; done.
  - destruct (Hfree w eq_refl) as (w2 & -> & Hf & Ho & He & Hl & Hs).
    cbn. unfold free_file. rewrite Hf, Hfile. cbn.
    eexists. split; [reflexivity|]. cbn.
    rewrite lookup_delete_eq, Ho, He, Hl, Hs.
    repeat split; intros; simplify_eq; try lia; done.
Qed.

(** C5.  Closing a valid handle (a live record of type HANDLE_TYPE_FILE whose
    name is NULL or a live string) returns TRUE; the stream is closed with
    [fclose] when its descriptor is greater than 2 and the C library is not
    called at all when it is 0, 1 or 2 (or less); in every case the name
    string and the record are freed, so that no record, and no reference to
    the stream, is left at the handle's address. *)
Theorem FileCloseHandle_releases w a file :
  files w !! a = Some file →
  Type_ file = HANDLE_TYPE_FILE →
  (∀ p, lpFileName file = Some p → is_Some (strings w !! p)) →
  ∃ w', FileCloseHandle w (Ptr a) = Some (true, w') ∧
    (∀ s, fp file = Some s → 2 < fileno s (os w) → os w' = fclose s (os w)) ∧
    (∀ s, fp file = Some s → fileno s (os w) ≤ 2 → os w' = os w) ∧
    (fp file = None → os w' = os w) ∧
    files w' = delete a (files w) ∧ files w' !! a = None ∧
    strings w' = match lpFileName file with
                 | Some p => delete p (strings w)
                 | None => strings w
                 end ∧
    LastError w' = LastError w ∧ wlog w' = wlog w.
Proof. apply FileCloseHandle_run. Qed.

(** *** Locking *)

Lemma FileLockFileEx_locked w a file flags reserved low high overlapped :
  files w !! a = Some file → bLocked file = true →
  FileLockFileEx w (Ptr a) flags reserved low high overlapped
  = Some (false, WLog_ERR already_locked w).
Proof. intros Hfile Hlocked. cbn. rewrite Hfile. cbn. rewrite Hlocked. reflexivity. Qed.

Lemma FileLockFileEx_acquires w a file s flags reserved low high :
  files w !! a = Some file → bLocked file = false → fp file = Some s →
  let lock := if negb (Z.land flags LOCKFILE_EXCLUSIVE_LOCK =? 0) then LOCK_EX else LOCK_SH in
  let lock := if negb (Z.land flags LOCKFILE_FAIL_IMMEDIATELY =? 0)
              then Z.lor lock LOCK_NB else lock in
  let r := flock (fileno s (os w)) lock (os w) in
  FileLockFileEx w (Ptr a) flags reserved low high null
  = Some (if r.1 <? 0 then (false, WLog_ERR flock_failed (with_os r.2 w))
          else (true, store a (set_bLocked true file) (with_os r.2 w))).
Proof.
  intros Hfile Hlocked Hfp. cbn. rewrite Hfile. cbn. rewrite Hlocked, Hfp. cbn.
  destruct (flock _ _ _) as [rc o]. cbn. destruct (rc <? 0); reflexivity.
Qed.

Lemma FileUnlockFile_unlocked w a file offLow offHigh low high :
  files w !! a = Some file → bLocked file = false →
  FileUnlockFile w (Ptr a) offLow offHigh low high = Some (false, WLog_ERR not_locked w).
Proof. intros Hfile Hlocked. cbn. rewrite Hfile. cbn. rewrite Hlocked. reflexivity. Qed.

Lemma FileUnlockFileEx_unlocked w a file reserved low high overlapped :
  files w !! a = Some file → bLocked file = false →
  FileUnlockFileEx w (Ptr a) reserved low high overlapped
  = Some (false, WLog_ERR not_locked w).
Proof. intros Hfile Hlocked. cbn. rewrite Hfile. cbn. rewrite Hlocked. reflexivity. Qed.

(** Neither unlock writes to a handle record: [bLocked] stays as it was. *)
Lemma FileUnlockFile_files w handle offLow offHigh low high res w' :
  FileUnlockFile w handle offLow offHigh low high = Some (res, w') →
  files w' = files w.
Proof.
  unfold FileUnlockFile. intros Hrun.
  repeat (case_match; simplify_option_eq); done.
Qed.

Lemma FileUnlockFileEx_files w handle reserved low high overlapped res w' :
  FileUnlockFileEx w handle reserved low high overlapped = Some (res, w') →
  files w' = files w.
Proof.
  unfold FileUnlockFileEx. intros Hrun.
  repeat (case_match; simplify_option_eq); done.
Qed.

(** After an unlock that succeeds, the record is what it was, [bLocked]
    included, and a second unlock is not refused as not locked: it calls
    [flock] again. *)
Lemma FileUnlockFile_again w a file s offLow offHigh low high w' :
  files w !! a = Some file → bLocked file = true → fp file = Some s →
  FileUnlockFile w (Ptr a) offLow offHigh low high = Some (true, w') →
  files w' !! a = Some file ∧
  FileUnlockFile w' (Ptr a) offLow offHigh low high =
    (let '(rc, o) := flock (fileno s (os w')) LOCK_UN (os w') in
     Some (if rc <? 0 then (false, WLog_ERR flock_unlock_failed (with_os o w'))
           else (true, with_os o w'))).
Proof.
  intros Hfile Hlocked Hfp Hrun.
  assert (Hfile' : files w' !! a = Some file)
    by (rewrite (FileUnlockFile_files _ _ _ _ _ _ _ _ Hrun); exact Hfile).
  split; [exact Hfile'|].
  unfold FileUnlockFile, deref. rewrite Hfile'. cbn. rewrite Hlocked, Hfp. cbn.
  destruct (flock _ _ _) as [rc o]. destruct (rc <? 0); reflexivity.
Qed.

(** *** Reading and writing *)

(** One item is counted exactly when all of its bytes were transferred, and
    there was a byte to transfer. *)
Lemma items_one size n : 0 ≤ n ≤ size → items size n = 1 ↔ n = size ∧ 0 < size.
Proof.
  intros Hn. unfold items. destruct (Z.eqb_spec size 0) as [->|Hsize]; [lia|].
  destruct (Z.eq_dec n size) as [->|Hne].
  - rewrite Z.div_same by lia. lia.
  - rewrite Z.div_small by lia. lia.
Qed.

Lemma FileRead_run w a file s n lpNumberOfBytesRead :
  files w !! a = Some file → fp file = Some s →
  ∃ r w', FileRead w (Ptr a) n lpNumberOfBytesRead null = Some (r, w') ∧
    read_buffer r = (fread n 1 s (os w)).1 ∧
    read_status r = (items n (Z.of_nat (length (fread n 1 s (os w)).1)) =? 1) ∧
    NumberOfBytesRead r = match lpNumberOfBytesRead with
                          | nonnull => Some n
                          | null => None
                          end ∧
    os w' = (fread n 1 s (os w)).2.
Proof.
  intros Hfile Hfp. unfold FileRead. cbn. rewrite Hfile. cbn. rewrite Hfp. cbn.
  destruct (fread n 1 s (os w)) as [data o]. cbn.
  destruct (items n (Z.of_nat (length data)) =? 1); cbn.
  - eexists _, _. split; [reflexivity|]. cbn. done.
  - destruct (errno o =? EWOULDBLOCK); eexists _, _; (split; [reflexivity|]); cbn; done.
Qed.

(** C9.  On a valid handle (a live record with a stream), for a length [n]
    and a buffer that holds [n] bytes: a read returns TRUE only if [fread]
    transferred exactly [n] bytes, then storing [n] as the count, and
    returns FALSE on a short transfer; a write returns TRUE only if [fwrite]
    took exactly [n] bytes, then storing [n] as the count, and returns FALSE
    on a short transfer.  A read or a write with an OVERLAPPED structure
    returns FALSE without calling the C library (only the log grows). *)
Theorem FileRead_FileWrite_exact w a file s n (lpBuffer : list Byte.byte) lpNumberOfBytes :
  files w !! a = Some file → fp file = Some s →
  0 ≤ n ≤ Z.of_nat (length lpBuffer) →
  (∃ r w', FileRead w (Ptr a) n lpNumberOfBytes null = Some (r, w') ∧
     read_buffer r = (fread n 1 s (os w)).1 ∧
     (read_status r = true →
        Z.of_nat (length (read_buffer r)) = n ∧
        (lpNumberOfBytes = nonnull → NumberOfBytesRead r = Some n)) ∧
     (Z.of_nat (length (read_buffer r)) < n → read_status r = false)) ∧
  (let written := (fwrite (take (Z.to_nat n) lpBuffer) n 1 s (os w)).1 in
   (∀ w', FileWrite w (Ptr a) lpBuffer n lpNumberOfBytes null ≠ Some (true, None, w')) ∧
   (∀ count w', FileWrite w (Ptr a) lpBuffer n lpNumberOfBytes null = Some (true, count, w') →
      written = n ∧ count = Some n) ∧
   (written < n →
      ∃ w', FileWrite w (Ptr a) lpBuffer n lpNumberOfBytes null = Some (false, None, w'))) ∧
  FileRead w (Ptr a) n lpNumberOfBytes nonnull
    = Some (refused, WLog_ERR overlapping_not_supported w) ∧
  FileWrite w (Ptr a) lpBuffer n lpNumberOfBytes nonnull
    = Some (false, None, WLog_ERR overlapping_not_supported w).
Proof.
  intros Hfile Hfp Hn. split; [|split; [|split; reflexivity]].
  - destruct (FileRead_run w a file s n lpNumberOfBytes Hfile Hfp)
      as (r & w' & Hrun & Hbuf & Hstatus & Hcount & _).
    exists r, w'. split; [exact Hrun|]. split; [exact Hbuf|].
    pose proof (fread_length n 1 s (os w) (proj1 Hn) ltac:(lia)) as Hle.
    rewrite <- Hbuf in Hle, Hstatus. rewrite Hstatus.
    split.
    + intros Hone%Z.eqb_eq%items_one; [|lia]. split; [lia|].
      intros ->. exact Hcount.
    + intros Hshort. apply Z.eqb_neq. rewrite items_one by lia. lia.
  - cbn zeta. unfold FileWrite. cbn. rewrite Hfile. cbn. rewrite Hfp. cbn.
    destruct (Z.ltb_spec (Z.of_nat (length lpBuffer)) n) as [?|_]; [lia|].
    pose proof (fwrite_length (take (Z.to_nat n) lpBuffer) n 1 s (os w)
                  (proj1 Hn) ltac:(lia)) as Hle.
    destruct (fwrite _ n 1 s (os w)) as [written o]. cbn in *.
    destruct (Z.eqb_spec (items n written) 1) as [Hone|Hnot]; cbn.
    + apply items_one in Hone; [|lia].
      destruct lpNumberOfBytes; repeat split; intros; simplify_eq; try lia; done.
    + rewrite items_one in Hnot by lia.
      repeat split; intros; simplify_eq; eauto.
Qed.

(** C10, as amended.  On a valid handle, a read without OVERLAPPED structure
    and with a place for the count stores the requested length [n] there
    whatever [fread] transferred: after a short transfer the result is FALSE
    and the count is [n], not the number of bytes transferred.  A read
    through NULL, and a read with an OVERLAPPED structure, return FALSE
    before that store: nothing is stored in the place for the count, and the
    C library is not called. *)
Theorem FileRead_count_is_request w a file s n :
  files w !! a = Some file → fp file = Some s → 0 ≤ n →
  (∃ r w', FileRead w (Ptr a) n nonnull null = Some (r, w') ∧
     read_buffer r = (fread n 1 s (os w)).1 ∧
     NumberOfBytesRead r = Some n ∧
     (Z.of_nat (length (read_buffer r)) < n →
        read_status r = false ∧
        NumberOfBytesRead r ≠ Some (Z.of_nat (length (read_buffer r))))) ∧
  (∃ r, FileRead w (Ptr a) n nonnull nonnull
          = Some (r, WLog_ERR overlapping_not_supported w) ∧
     read_status r = false ∧ NumberOfBytesRead r = None) ∧
  (∀ overlapped,
     ∃ r, FileRead w NULL n nonnull overlapped = Some (r, w) ∧
       read_status r = false ∧ NumberOfBytesRead r = None).
Proof.
  intros Hfile Hfp Hn. split; [|split].
  - destruct (FileRead_run w a file s n nonnull Hfile Hfp)
      as (r & w' & Hrun & Hbuf & Hstatus & Hcount & _).
    exists r, w'. split; [exact Hrun|]. split; [exact Hbuf|]. split; [exact Hcount|].
    intros Hshort. split.
    + rewrite Hstatus, <- Hbuf. apply Z.eqb_neq. rewrite items_one by lia. lia.
    + rewrite Hcount. intros [= Heq]. lia.
  - exists refused. done.
  - intros overlapped. exists refused. done.
Qed.

(** *** Setting the times *)

(** [FileSetFileTime] hands [FileSetFileTime_array] to the system call: in
    the default configuration without reading the file's status, ... *)
Lemma FileSetFileTime_default w a file s buf name creation access write :
  files w !! a = Some file → fp file = Some s →
  FileSetFileTime Futimens w (Ptr a) creation access write =
    (let '(rc, o) := set_times (FileSetFileTime_array Futimens buf access write)
                       (fileno s (os w)) name (os w) in
     Some (rc =? 0, with_os o w)).
Proof.
  intros Hfile Hfp. unfold FileSetFileTime, deref. rewrite Hfile. cbn. rewrite Hfp.
  reflexivity.
Qed.

(** ... and in the others after [fstat], with what it stored in [buf]. *)
Lemma FileSetFileTime_utimes p w a file s q name creation access write :
  p ≠ Futimens →
  files w !! a = Some file → fp file = Some s →
  lpFileName file = Some q → strings w !! q = Some name →
  FileSetFileTime p w (Ptr a) creation access write =
    (let '(buf, o) := fstat (fileno s (os w)) (os w) in
     match buf with
     | None => Some (false, with_os o w)
     | Some buf =>
         let '(rc, o) := set_times (FileSetFileTime_array p buf access write)
                           (fileno s (os w)) name o in
         Some (rc =? 0, with_os o w)
     end).
Proof.
  intros Hp Hfile Hfp Hq Hname. unfold FileSetFileTime, deref. rewrite Hfile. cbn.
  rewrite Hfp. cbn.
  destruct p; [contradiction| |]; destruct (fstat _ _) as [[buf|] o]; cbn;
    rewrite ?Hq; cbn; rewrite ?Hname; reflexivity.
Qed.

(** *** Validation of the handle *)

Lemma FileIsHandled_not_handled w handle :
  not_handled w handle →
  FileIsHandled w handle = Some (false, SetLastError ERROR_INVALID_HANDLE w).
Proof.
  intros [->|(a & file & -> & Hfile & Htype)]; [reflexivity|].
  eapply FileIsHandled_other; eassumption.
Qed.

Lemma retype_lookup t a w : files (retype t a w) !! a = set_Type t <$> files w !! a.
Proof. cbn. apply lookup_alter_eq. Qed.

Lemma retype_store t a file w :
  store a (set_Type t file) (retype t a w) = retype t a (store a file w).
Proof.
  unfold store, retype. cbn. f_equal.
  apply map_eq. intros i. destruct (decide (a = i)) as [->|Hne].
  - rewrite lookup_insert_eq, lookup_alter_eq, lookup_insert_eq. reflexivity.
  - rewrite lookup_insert_ne, !lookup_alter_ne, lookup_insert_ne by done. reflexivity.
Qed.

(** Case analysis on whatever a computation in the option monad branches
    on, innermost first. *)
Ltac atomic x :=
  lazymatch x with
  | context [match _ with _ => _ end] => fail
  | context [mbind _ _] => fail
  | _ => idtac
  end.

Ltac run_cases :=
  repeat first
    [ progress cbn
    | match goal with
      | |- context [mbind _ ?x] => atomic x; destruct x eqn:?
      | |- context [match ?x with _ => _ end] => atomic x; destruct x eqn:?
      end ];
  try done.

Lemma FileRead_retype t a w n count overlapped :
  FileRead (retype t a w) (Ptr a) n count overlapped
  = retyped t a (FileRead w (Ptr a) n count overlapped).
Proof.
  unfold FileRead, retyped, deref. rewrite retype_lookup.
  destruct (files w !! a) as [file|]; run_cases.
Qed.

Lemma FileWrite_retype t a w buffer n count overlapped :
  FileWrite (retype t a w) (Ptr a) buffer n count overlapped
  = retyped t a (FileWrite w (Ptr a) buffer n count overlapped).
Proof.
  unfold FileWrite, retyped, deref. rewrite retype_lookup.
  destruct (files w !! a) as [file|]; run_cases.
Qed.

Lemma FileGetFileSize_retype t a w high :
  FileGetFileSize (retype t a w) (Ptr a) high
  = retyped t a (FileGetFileSize w (Ptr a) high).
Proof.
  unfold FileGetFileSize, retyped, deref. rewrite retype_lookup.
  destruct (files w !! a) as [file|]; run_cases.
Qed.

Lemma FileSetEndOfFile_retype t a w :
  FileSetEndOfFile (retype t a w) (Ptr a) = retyped t a (FileSetEndOfFile w (Ptr a)).
Proof.
  unfold FileSetEndOfFile, retyped, deref. rewrite retype_lookup.
  destruct (files w !! a) as [file|]; run_cases.
Qed.

Lemma FileSetFilePointer_retype t a w distance high method :
  FileSetFilePointer (retype t a w) (Ptr a) distance high method
  = retyped t a (FileSetFilePointer w (Ptr a) distance high method).
Proof.
  unfold FileSetFilePointer, retyped, deref. rewrite retype_lookup.
  destruct (files w !! a) as [file|]; run_cases.
Qed.

Lemma FileLockFileEx_retype t a w flags reserved low high overlapped :
  FileLockFileEx (retype t a w) (Ptr a) flags reserved low high overlapped
  = retyped t a (FileLockFileEx w (Ptr a) flags reserved low high overlapped).
Proof.
  unfold FileLockFileEx, retyped. rewrite retype_lookup.
  destruct (files w !! a) as [file|]; run_cases;
    do 2 f_equal; apply (retype_store t a (set_bLocked true file) (with_os _ w)).
Qed.

Lemma FileUnlockFile_retype t a w offLow offHigh low high :
  FileUnlockFile (retype t a w) (Ptr a) offLow offHigh low high
  = retyped t a (FileUnlockFile w (Ptr a) offLow offHigh low high).
Proof.
  unfold FileUnlockFile, retyped, deref. rewrite retype_lookup.
  destruct (files w !! a) as [file|]; run_cases.
Qed.

Lemma FileUnlockFileEx_retype t a w reserved low high overlapped :
  FileUnlockFileEx (retype t a w) (Ptr a) reserved low high overlapped
  = retyped t a (FileUnlockFileEx w (Ptr a) reserved low high overlapped).
Proof.
  unfold FileUnlockFileEx, retyped, deref. rewrite retype_lookup.
  destruct (files w !! a) as [file|]; run_cases.
Qed.

Lemma FileSetFileTime_retype p t a w creation access write :
  FileSetFileTime p (retype t a w) (Ptr a) creation access write
  = retyped t a (FileSetFileTime p w (Ptr a) creation access write).
Proof.
  unfold FileSetFileTime, retyped, deref. rewrite retype_lookup.
  destruct (files w !! a) as [file|]; run_cases.
Qed.

(** C4, as amended.  Close and get-descriptor call [FileIsHandled] first: on
    a NULL handle and on a record of another type they return failure with
    the last error set to ERROR_INVALID_HANDLE and nothing else changed.  The
    other eight operations only test the handle for NULL: on NULL they
    return their failure value (FALSE, INVALID_SET_FILE_POINTER, or 0 for
    the size) and leave the last error as it was; they never read the type
    of the record, so that on a record of another type [t] they do what they
    do on a file handle. *)
Theorem validation_of_handles w :
  (∀ handle, not_handled w handle →
     FileCloseHandle w handle = Some (false, SetLastError ERROR_INVALID_HANDLE w) ∧
     FileGetFd w handle = Some (-1, SetLastError ERROR_INVALID_HANDLE w)) ∧
  (∀ p buffer n distance method flags low high offLow offHigh reserved count overlapped
     creation access write,
     FileRead w NULL n count overlapped = Some (refused, w) ∧
     FileWrite w NULL buffer n count overlapped = Some (false, None, w) ∧
     FileGetFileSize w NULL count = Some (0, None, w) ∧
     FileSetEndOfFile w NULL = Some (false, w) ∧
     FileSetFilePointer w NULL distance count method = Some (INVALID_SET_FILE_POINTER, w) ∧
     FileLockFileEx w NULL flags reserved low high overlapped = Some (false, w) ∧
     FileUnlockFile w NULL offLow offHigh low high = Some (false, w) ∧
     FileUnlockFileEx w NULL reserved low high overlapped = Some (false, w) ∧
     FileSetFileTime p w NULL creation access write = Some (false, w)) ∧
  (∀ t a p buffer n distance method flags low high offLow offHigh reserved count overlapped
     creation access write,
     FileRead (retype t a w) (Ptr a) n count overlapped
       = retyped t a (FileRead w (Ptr a) n count overlapped) ∧
     FileWrite (retype t a w) (Ptr a) buffer n count overlapped
       = retyped t a (FileWrite w (Ptr a) buffer n count overlapped) ∧
     FileGetFileSize (retype t a w) (Ptr a) count
       = retyped t a (FileGetFileSize w (Ptr a) count) ∧
     FileSetEndOfFile (retype t a w) (Ptr a)
       = retyped t a (FileSetEndOfFile w (Ptr a)) ∧
     FileSetFilePointer (retype t a w) (Ptr a) distance count method
       = retyped t a (FileSetFilePointer w (Ptr a) distance count method) ∧
     FileLockFileEx (retype t a w) (Ptr a) flags reserved low high overlapped
       = retyped t a (FileLockFileEx w (Ptr a) flags reserved low high overlapped) ∧
     FileUnlockFile (retype t a w) (Ptr a) offLow offHigh low high
       = retyped t a (FileUnlockFile w (Ptr a) offLow offHigh low high) ∧
     FileUnlockFileEx (retype t a w) (Ptr a) reserved low high overlapped
       = retyped t a (FileUnlockFileEx w (Ptr a) reserved low high overlapped) ∧
     FileSetFileTime p (retype t a w) (Ptr a) creation access write
       = retyped t a (FileSetFileTime p w (Ptr a) creation access write)).
Proof.
  split; [|split].
  - intros handle Hbad. unfold FileCloseHandle, FileGetFd.
    rewrite (FileIsHandled_not_handled _ _ Hbad). split; reflexivity.
  - intros. repeat split; reflexivity.
  - intros. auto 20 using FileRead_retype, FileWrite_retype, FileGetFileSize_retype,
      FileSetEndOfFile_retype, FileSetFilePointer_retype, FileLockFileEx_retype,
      FileUnlockFile_retype, FileUnlockFileEx_retype, FileSetFileTime_retype.
Qed.

(** *** Construction *)

Lemma world_eq w w' :
  files w = files w' → strings w = strings w' → LastError w = LastError w' →
  wlog w = wlog w' → os w = os w' → w = w'.
Proof. destruct w, w'. cbn. intros. subst. reflexivity. Qed.

(** The end of [FileCreateFileA], on a live record that holds the stream. *)
Lemma FileCreateFileA_share_run w pFile file s share :
  files w !! pFile = Some file → fp file = Some s →
  let w1 := with_os (setvbuf s _IONBF (os w)) w in
  let lock :=
    if negb (Z.land share FILE_SHARE_WRITE =? 0) then LOCK_EX
    else if negb (Z.land share FILE_SHARE_READ =? 0) then LOCK_SH else 0 in
  let r := flock (fileno s (os w1)) lock (os w1) in
  FileCreateFileA_share w pFile s share =
    if Z.land share (Z.lor FILE_SHARE_READ FILE_SHARE_WRITE) =? 0 then Some (Ptr pFile, w1)
    else if r.1 <? 0 then
      '(_, w') ← FileCloseHandle (WLog_ERR flock_failed (with_os r.2 w1)) (Ptr pFile);
      Some (INVALID_HANDLE_VALUE, w')
    else Some (Ptr pFile, store pFile (set_bLocked true file) (with_os r.2 w1)).
Proof.
  intros Hfile Hfp. cbn zeta. unfold FileCreateFileA_share.
  destruct (Z.land share (Z.lor _ _) =? 0); [reflexivity|].
  cbn. rewrite Hfile. cbn. rewrite Hfp. cbn.
  destruct (Z.land share FILE_SHARE_WRITE =? 0), (Z.land share FILE_SHARE_READ =? 0); cbn;
    destruct (flock _ _ _) as [rc o]; cbn; destruct (rc <? 0); try reflexivity;
    unfold assign; cbn; rewrite Hfile; reflexivity.
Qed.

(** The middle of [FileCreateFileA], on a live record with a live name. *)
Lemma FileCreateFileA_open_run w pFile file name path mode stream share :
  files w !! pFile = Some file → lpFileName file = Some name →
  strings w !! name = Some path →
  let r := match stream with
           | None => fopen path mode (os w)
           | Some _ => (stream, os w)
           end in
  FileCreateFileA_open w pFile mode stream share =
    match r.1 with
    | None =>
        Some (INVALID_HANDLE_VALUE,
              {| files := delete pFile (files w); strings := delete name (strings w);
                 LastError := LastError w; wlog := wlog w; os := r.2 |})
    | Some s =>
        FileCreateFileA_share (store pFile (set_fp (Some s) file) (with_os r.2 w)) pFile s share
    end.
Proof.
  intros Hfile Hname Hpath. cbn zeta. unfold FileCreateFileA_open.
  assert (Hstep : ∀ stream o,
    (assign pFile (set_fp stream) (with_os o w) ≫= λ w1,
       match stream with
       | None =>
           file ← files w1 !! pFile;
           w2 ← free_string (lpFileName file) w1;
           w3 ← free_file pFile w2;
           Some (INVALID_HANDLE_VALUE, w3)
       | Some s => FileCreateFileA_share w1 pFile s share
       end) =
    match stream with
    | None =>
        Some (INVALID_HANDLE_VALUE,
              {| files := delete pFile (files w); strings := delete name (strings w);
                 LastError := LastError w; wlog := wlog w; os := o |})
    | Some s =>
        FileCreateFileA_share (store pFile (set_fp (Some s) file) (with_os o w)) pFile s share
    end).
  { intros [s|] o; unfold assign; cbn; rewrite Hfile; cbn; [reflexivity|].
    rewrite lookup_insert_eq. cbn. rewrite Hname. cbn. rewrite Hpath. cbn.
    unfold free_file. cbn. rewrite lookup_insert_eq. cbn.
    rewrite delete_insert_eq. reflexivity. }
  destruct stream as [s|].
  - cbn. specialize (Hstep (Some s) (os w)).
    replace (with_os (os w) w) with w in Hstep by (destruct w; reflexivity).
    exact Hstep.
  - cbn. rewrite Hfile. cbn. rewrite Hname. cbn. rewrite Hpath. cbn.
    destruct (fopen path mode (os w)) as [stream o]. cbn. apply Hstep.
Qed.

(** [FileCreateFileA], stage by stage: the two allocations, the calls
    that open the file, and the end from [setvbuf] on. *)
Lemma FileCreateFileA_run w fileName access share security disposition attributes template :
  let mode := (FileGetMode access disposition).1 in
  let create := (FileGetMode access disposition).2 in
  let c := calloc (os w) in
  let d := _strdup fileName c.2 in
  let pFile := fresh (dom (files w)) in
  let name := fresh (dom (strings w)) in
  let file := created_record name access share attributes security disposition template in
  let r := FileCreateFileA_stream create mode fileName d.2 in
  FileCreateFileA w fileName access share security disposition attributes template =
    if negb c.1 then
      Some (INVALID_HANDLE_VALUE, SetLastError ERROR_NOT_ENOUGH_MEMORY (with_os c.2 w))
    else if negb d.1 then
      Some (INVALID_HANDLE_VALUE, SetLastError ERROR_NOT_ENOUGH_MEMORY (with_os d.2 w))
    else
      match r.1 with
      | None => Some (INVALID_HANDLE_VALUE, with_os r.2 w)
      | Some s =>
          FileCreateFileA_share
            (store pFile (set_fp (Some s) file) (store_string name fileName (with_os r.2 w)))
            pFile s share
      end.
Proof.
  cbn zeta. unfold FileCreateFileA.
  destruct (FileGetMode access disposition) as [mode create]. cbn [fst snd].
  pose proof (is_fresh (dom (files w))) as HpFile. apply not_elem_of_dom in HpFile.
  pose proof (is_fresh (dom (strings w))) as Hname. apply not_elem_of_dom in Hname.
  set (pFile := fresh (dom (files w))) in *. set (name := fresh (dom (strings w))) in *.
  set (file := created_record _ _ _ _ _ _ _).
  assert (Hopen : ∀ w1 stream,
    files w1 = <[pFile:=file]> (files w) → strings w1 = <[name:=fileName]> (strings w) →
    LastError w1 = LastError w → wlog w1 = wlog w →
    FileCreateFileA_open w1 pFile mode stream share =
    match (match stream with
           | None => fopen fileName mode (os w1)
           | Some _ => (stream, os w1)
           end) with
    | (None, o) => Some (INVALID_HANDLE_VALUE, with_os o w)
    | (Some s, o) =>
        FileCreateFileA_share
          (store pFile (set_fp (Some s) file) (store_string name fileName (with_os o w)))
          pFile s share
    end).
  { intros w1 stream Hf Hs He Hl.
    rewrite (FileCreateFileA_open_run _ pFile file name fileName)
      by (rewrite ?Hf, ?Hs, ?lookup_insert_eq; reflexivity).
    cbn. destruct (match stream with None => _ | Some _ => _ end) as [[s|] o']; cbn.
    - f_equal. apply world_eq; cbn; rewrite ?Hf, ?Hs, ?insert_insert_eq; done.
    - do 2 f_equal. apply world_eq; cbn; rewrite ?Hf, ?Hs, ?delete_insert_id; done. }
  remember FileCreateFileA_open as opening eqn:Hopening. clear Hopening.
  remember FileCreateFileA_share as sharing eqn:Hsharing. clear Hsharing.
  destruct (calloc (os w)) as [[] o1]; cbn [fst snd negb]; [|reflexivity].
  unfold assign. cbn. rewrite !lookup_insert_eq. cbn. rewrite !lookup_insert_eq. cbn.
  destruct (_strdup fileName o1) as [[] o2]; cbn [fst snd negb].
  - cbn. rewrite !lookup_insert_eq. cbn. rewrite !lookup_insert_eq. cbn.
    rewrite !insert_insert_eq.
    unfold FileCreateFileA_stream. destruct create.
    + cbn. rewrite ?lookup_insert_eq. cbn. rewrite ?lookup_insert_eq. cbn.
      destruct (fopen fileName "ab" o2) as [[s|] o3]; cbn.
      * rewrite ?lookup_insert_eq. cbn. rewrite ?lookup_insert_eq. cbn.
        destruct (freopen fileName mode s o3) as [stream o4]. cbn.
        rewrite Hopen by (cbn; rewrite ?insert_insert_eq; reflexivity).
        cbn. destruct stream as [s'|]; [reflexivity|].
        destruct (fopen fileName mode o4) as [[s'|] o5]; reflexivity.
      * rewrite ?lookup_insert_eq. cbn. rewrite ?lookup_insert_eq. cbn.
        unfold free_file. cbn. rewrite ?lookup_insert_eq. cbn.
        do 2 f_equal. apply world_eq; cbn; rewrite ?insert_insert_eq, ?delete_insert_id; done.
    + rewrite Hopen by (cbn; rewrite ?insert_insert_eq; reflexivity).
      cbn. destruct (fopen fileName mode o2) as [[s|] o3]; reflexivity.
  - cbn. rewrite ?lookup_insert_eq. cbn. unfold free_file. cbn.
    rewrite ?lookup_insert_eq. cbn.
    do 2 f_equal. apply world_eq; cbn; rewrite ?insert_insert_eq, ?delete_insert_id; done.
Qed.

Lemma share_requested share :
  Z.land share (Z.lor FILE_SHARE_READ FILE_SHARE_WRITE) ≠ 0 →
  Z.land share FILE_SHARE_WRITE = 0 → Z.land share FILE_SHARE_READ ≠ 0.
Proof.
  rewrite Z.land_lor_distr_r. intros Hany Hwrite Hread.
  rewrite Hwrite, Hread in Hany. exact (Hany eq_refl).
Qed.

(** The three ways in which the end of [FileCreateFileA] returns. *)
Lemma FileCreateFileA_share_outcome w pFile file name s share :
  files w !! pFile = Some file → fp file = Some s →
  Type_ file = HANDLE_TYPE_FILE →
  lpFileName file = Some name → is_Some (strings w !! name) →
  let o := setvbuf s _IONBF (os w) in
  let r := flock (fileno s o) (share_lock share) o in
  ∃ h w', FileCreateFileA_share w pFile s share = Some (h, w') ∧
    if Z.land share (Z.lor FILE_SHARE_READ FILE_SHARE_WRITE) =? 0 then
      h = Ptr pFile ∧ w' = with_os o w
    else if r.1 <? 0 then
      h = INVALID_HANDLE_VALUE ∧
      files w' = delete pFile (files w) ∧ strings w' = delete name (strings w) ∧
      os w' = (if 2 <? fileno s r.2 then fclose s r.2 else r.2) ∧
      wlog w' = wlog w ++ [flock_failed] ∧ LastError w' = LastError w
    else
      h = Ptr pFile ∧ w' = store pFile (set_bLocked true file) (with_os r.2 w).
Proof.
  intros Hfile Hfp Htype Hname Hlive. cbn zeta.
  rewrite (FileCreateFileA_share_run w pFile file s share Hfile Hfp). cbn zeta.
  destruct (Z.eqb_spec (Z.land share (Z.lor FILE_SHARE_READ FILE_SHARE_WRITE)) 0)
    as [|Hany]; [eauto|].
  replace (if negb (Z.land share FILE_SHARE_WRITE =? 0) then LOCK_EX
           else if negb (Z.land share FILE_SHARE_READ =? 0) then LOCK_SH else 0)
    with (share_lock share).
  2:{ unfold share_lock. destruct (Z.eqb_spec (Z.land share FILE_SHARE_WRITE) 0) as [Hw|]; [|done].
      cbn. destruct (Z.eqb_spec (Z.land share FILE_SHARE_READ) 0) as [Hr|]; [|done].
      destruct (share_requested share Hany Hw Hr). }
  cbn [os with_os].
  destruct (flock _ _ _) as [rc o]. cbn [fst snd].
  destruct (rc <? 0); [|eauto].
  destruct (FileCloseHandle_run
              (WLog_ERR flock_failed (with_os o (with_os (setvbuf s _IONBF (os w)) w)))
              pFile file) as (w' & -> & Hgt & Hle & _ & Hfiles & _ & Hstrings & Herr & Hlog);
    [exact Hfile | exact Htype | intros p Hp; rewrite Hname in Hp; by simplify_eq |].
  cbn. eexists _, _. split; [reflexivity|]. cbn in *.
  rewrite Hname in Hstrings.
  repeat split; try done.
  destruct (Z.ltb_spec 2 (fileno s o)); eauto.
Qed.

Lemma created_record_fields name access share attributes security disposition template s :
  let file := set_fp (Some s)
                (created_record name access share attributes security disposition template) in
  fp file = Some s ∧ Type_ file = HANDLE_TYPE_FILE ∧ lpFileName file = Some name ∧
  bLocked file = false.
Proof. cbn. done. Qed.

(** C6.  [FileCreateFileA] always returns, and never NULL.  When it returns
    INVALID_HANDLE_VALUE the heap of handle records and the heap of strings
    are what they were before the call: the record and the copy of the name
    have been freed, if they had been allocated.  It does so whenever a stage
    fails: [calloc], [_strdup], the calls that open the file (the create-first
    [fopen] in mode "ab", or the [fopen] in the resolved mode), or the
    [flock] for the share mode.  Otherwise it returns the address of a new
    record, which holds the stream and a new copy of the name. *)
Theorem FileCreateFileA_all_or_nothing
    w fileName access share security disposition attributes template :
  let mode := (FileGetMode access disposition).1 in
  let create := (FileGetMode access disposition).2 in
  let c := calloc (os w) in
  let d := _strdup fileName c.2 in
  let r := FileCreateFileA_stream create mode fileName d.2 in
  ∃ h w',
    FileCreateFileA w fileName access share security disposition attributes template
      = Some (h, w') ∧
    match h with
    | INVALID_HANDLE_VALUE => files w' = files w ∧ strings w' = strings w
    | Ptr a =>
        files w !! a = None ∧
        ∃ file name s,
          files w' = <[a := file]> (files w) ∧ fp file = Some s ∧
          lpFileName file = Some name ∧
          strings w !! name = None ∧ strings w' = <[name := fileName]> (strings w)
    | NULL => False
    end ∧
    (c.1 = false ∨ d.1 = false ∨ r.1 = None ∨
     (∃ s, r.1 = Some s ∧
        Z.land share (Z.lor FILE_SHARE_READ FILE_SHARE_WRITE) ≠ 0 ∧
        (flock (fileno s (setvbuf s _IONBF r.2)) (share_lock share)
           (setvbuf s _IONBF r.2)).1 < 0) →
     h = INVALID_HANDLE_VALUE).
Proof.
  cbn zeta. rewrite FileCreateFileA_run. cbn zeta.
  pose proof (is_fresh (dom (files w))) as HpFile. apply not_elem_of_dom in HpFile.
  pose proof (is_fresh (dom (strings w))) as Hname. apply not_elem_of_dom in Hname.
  destruct (calloc (os w)) as [[] o1]; cbn [fst snd negb];
    [|eexists _, _; split; [reflexivity|]; cbn; done].
  destruct (_strdup fileName o1) as [[] o2]; cbn [fst snd negb];
    [|eexists _, _; split; [reflexivity|]; cbn; done].
  destruct (FileCreateFileA_stream _ _ fileName o2) as [[s|] o3]; cbn [fst snd];
    [|eexists _, _; split; [reflexivity|]; cbn; done].
  set (pFile := fresh (dom (files w))) in *. set (name := fresh (dom (strings w))) in *.
  set (file := set_fp (Some s) _).
  destruct (FileCreateFileA_share_outcome
              (store pFile file (store_string name fileName (with_os o3 w)))
              pFile file name s share)
    as (h & w' & -> & Hout);
    [apply lookup_insert_eq | reflexivity | reflexivity | reflexivity
    | cbn; rewrite lookup_insert_eq; eauto |].
  exists h, w'. split; [reflexivity|]. cbn in Hout.
  destruct (Z.eqb_spec (Z.land share (Z.lor FILE_SHARE_READ FILE_SHARE_WRITE)) 0) as [Hnone|Hany].
  - destruct Hout as [-> ->]. cbn. split.
    + split; [exact HpFile|]. exists file, name, s. done.
    + intros [|[|[|(s' & _ & ? & _)]]]; done.
  - destruct (Z.ltb_spec (flock (fileno s (setvbuf s _IONBF o3)) (share_lock share)
                            (setvbuf s _IONBF o3)).1 0) as [Hfail|Hok].
    + destruct Hout as (-> & Hfiles & Hstrings & _). split; [|done].
      rewrite Hfiles, Hstrings. cbn. rewrite !delete_insert_id; done.
    + destruct Hout as [-> ->]. cbn. split.
      * split; [exact HpFile|]. exists (set_bLocked true file), name, s.
        rewrite insert_insert_eq. done.
      * intros [|[|[|(s' & Hs' & _ & Hrc)]]]; try done. simplify_eq. lia.
Qed.

(** C8.  When both allocations succeed and the file is opened, as stream [s],
    and the share mode has FILE_SHARE_READ or FILE_SHARE_WRITE, the next call
    after [setvbuf] is [flock] on the stream's descriptor, exclusive with
    FILE_SHARE_WRITE and shared with FILE_SHARE_READ alone.  If it succeeds
    the new record is returned with [bLocked] set; if it fails the handle is
    closed (the record and the name are freed, the stream is closed when its
    descriptor is greater than 2) and INVALID_HANDLE_VALUE is returned. *)
Theorem FileCreateFileA_locks
    w fileName access share security disposition attributes template s o :
  let mode := (FileGetMode access disposition).1 in
  let create := (FileGetMode access disposition).2 in
  let c := calloc (os w) in
  let d := _strdup fileName c.2 in
  c.1 = true → d.1 = true →
  FileCreateFileA_stream create mode fileName d.2 = (Some s, o) →
  Z.land share (Z.lor FILE_SHARE_READ FILE_SHARE_WRITE) ≠ 0 →
  let r := flock (fileno s (setvbuf s _IONBF o)) (share_lock share) (setvbuf s _IONBF o) in
  ∃ h w',
    FileCreateFileA w fileName access share security disposition attributes template
      = Some (h, w') ∧
    (0 ≤ r.1 →
       ∃ a file, h = Ptr a ∧ files w !! a = None ∧ files w' !! a = Some file ∧
         bLocked file = true ∧ fp file = Some s ∧ os w' = r.2) ∧
    (r.1 < 0 →
       h = INVALID_HANDLE_VALUE ∧ files w' = files w ∧ strings w' = strings w ∧
       os w' = (if 2 <? fileno s r.2 then fclose s r.2 else r.2) ∧
       wlog w' = wlog w ++ [flock_failed]).
Proof.
  cbn zeta. intros Hc Hd Hstream Hany. rewrite FileCreateFileA_run. cbn zeta.
  rewrite Hc, Hd, Hstream. cbn [fst snd negb].
  pose proof (is_fresh (dom (files w))) as HpFile. apply not_elem_of_dom in HpFile.
  pose proof (is_fresh (dom (strings w))) as Hname. apply not_elem_of_dom in Hname.
  set (pFile := fresh (dom (files w))) in *. set (name := fresh (dom (strings w))) in *.
  set (file := set_fp (Some s) _).
  destruct (FileCreateFileA_share_outcome
              (store pFile file (store_string name fileName (with_os o w)))
              pFile file name s share)
    as (h & w' & -> & Hout);
    [apply lookup_insert_eq | reflexivity | reflexivity | reflexivity
    | cbn; rewrite lookup_insert_eq; eauto |].
  exists h, w'. split; [reflexivity|]. cbn in Hout.
  destruct (Z.eqb_spec (Z.land share (Z.lor FILE_SHARE_READ FILE_SHARE_WRITE)) 0);
    [contradiction|].
  destruct (Z.ltb_spec (flock (fileno s (setvbuf s _IONBF o)) (share_lock share)
                          (setvbuf s _IONBF o)).1 0) as [Hfail|Hok].
  - destruct Hout as (-> & Hfiles & Hstrings & Hos & Hlog & _).
    split; [lia|]. intros _. rewrite Hfiles, Hstrings. cbn.
    rewrite !delete_insert_id; done.
  - destruct Hout as [-> ->]. split; [|lia]. intros _.
    exists pFile, (set_bLocked true file). cbn. rewrite lookup_insert_eq. done.
Qed.

End Facts.

(** ** Facts about the timestamps *)

Section TimeFacts.
Context `{Headers}.

Lemma FILETIME_value_of_ticks T :
  0 ≤ T < 2 ^ 64 → FILETIME_value (FILETIME_of_ticks T) = T.
Proof.
  intros HT. unfold FILETIME_value, FILETIME_of_ticks, UINT64. cbn [dwLowDateTime dwHighDateTime].
  assert (0 ≤ T / 2 ^ 32 < 2 ^ 32) as Hhigh.
  { split; [apply Z.div_pos; lia|]. apply Z.div_lt_upper_bound; lia. }
  rewrite (Z.mod_small (T / 2 ^ 32)) by lia.
  rewrite Z.shiftl_mul_pow2 by lia.
  rewrite (Z.mod_small (T / 2 ^ 32 * 2 ^ 32)) by lia.
  rewrite <- Z.shiftl_mul_pow2 by lia.
  rewrite <- Z.land_ones by lia.
  rewrite <- (Z.shiftr_div_pow2 T 32) by lia.
  apply Z.bits_inj'. intros n Hn.
  rewrite Z.lor_spec, Z.land_spec.
  destruct (Z.lt_ge_cases n 32) as [Hlt|Hge].
  - rewrite Z.shiftl_spec_low by lia. rewrite Z.ones_spec_low by lia.
    cbn. apply andb_true_r.
  - rewrite Z.shiftl_spec by lia. rewrite Z.shiftr_spec by lia.
    rewrite Z.ones_spec_high by lia.
    replace (n - 32 + 32) with n by lia. rewrite andb_false_r, orb_false_r. reflexivity.
Qed.

(** What the default configuration computes from a tick count [T]: the
    seconds' offset is subtracted from the ticks, and the difference is
    divided by [10^8]. *)
Lemma timespec_of_ticks T :
  0 ≤ T < 2 ^ 64 →
  timespec_of_FILETIME (FILETIME_of_ticks T) =
    {| tv_sec := UINT64 (T - 11644473600) / 10 ^ 8;
       tv_nsec := UINT64 (T - 11644473600) / 10 mod 10 ^ 7 |}.
Proof.
  intros HT. unfold timespec_of_FILETIME. rewrite (FILETIME_value_of_ticks T HT).
  unfold EPOCH_DIFF. f_equal. rewrite Z.div_div by lia. reflexivity.
Qed.

(** C3.  The tick count of 1970-01-01T00:00:00Z is 116444736000000000: its
    quotient by [10^7] less 11644473600 is 0, with remainder 0.  From it the
    default configuration computes 1164447243 seconds and a sub-second part
    of 5552640, and the configurations with [timeval] 116444724 seconds and
    3555: in neither the seconds are the quotient less the offset. *)
Theorem FileSetFileTime_at_unix_epoch (buf : stat) :
  let T := 116444736000000000 in
  (T / 10 ^ 7 - 11644473600 = 0 ∧ T mod 10 ^ 7 = 0) ∧
  FileSetFileTime_array Futimens buf (Some (FILETIME_of_ticks T)) (Some (FILETIME_of_ticks T))
    = Times {| tv_sec := 1164447243; tv_nsec := 5552640 |}
            {| tv_sec := 1164447243; tv_nsec := 5552640 |} ∧
  (∀ p, p ≠ Futimens →
     FileSetFileTime_array p buf (Some (FILETIME_of_ticks T)) (Some (FILETIME_of_ticks T))
       = Timevals {| tv_sec' := 116444724; tv_usec := 3555 |}
                  {| tv_sec' := 116444724; tv_usec := 3555 |}) ∧
  tv_sec (timespec_of_FILETIME (FILETIME_of_ticks T)) ≠ T / 10 ^ 7 - 11644473600 ∧
  tv_sec' (timeval_of_FILETIME (FILETIME_of_ticks T)) ≠ T / 10 ^ 7 - 11644473600.
Proof.
  cbn zeta. split; [split; reflexivity|]. split; [reflexivity|]. split.
  - intros [] Hp; [contradiction | reflexivity | reflexivity].
  - split; vm_compute; discriminate.
Qed.

(** C7, as amended.  When the access time (or the write time) is not given,
    the default configuration fills its element with UTIME_OMIT, in both
    fields, and [futimens] then leaves that time of the file as it was.  The
    configurations that call [utimes] fill it with the current time of the
    file as [fstat] gave it, cut down to whole microseconds: the seconds and
    the microseconds of the file's time stay, what is below a microsecond is
    lost. *)
Theorem absent_time_is_kept (now : timespec) (st : stat) (access write : option FILETIME) :
  0 ≤ tv_nsec (st_atim st) < 10 ^ 9 → 0 ≤ tv_nsec (st_mtim st) < 10 ^ 9 →
  (FileSetFileTime_array Futimens st None write
     = Times {| tv_sec := UTIME_OMIT; tv_nsec := UTIME_OMIT |} (times_entry write) ∧
   FileSetFileTime_array Futimens st access None
     = Times (times_entry access) {| tv_sec := UTIME_OMIT; tv_nsec := UTIME_OMIT |} ∧
   st_atim (times_after Futimens now st None write) = st_atim st ∧
   st_mtim (times_after Futimens now st access None) = st_mtim st) ∧
  (∀ p, p ≠ Futimens →
     st_atim (times_after p now st None write) = microseconds (st_atim st) ∧
     st_mtim (times_after p now st access None) = microseconds (st_mtim st)).
Proof.
  intros Hatime Hmtime. split.
  - unfold times_after, futimens_effect, futimens_entry. cbn.
    rewrite Z.eqb_refl. done.
  - intros p Hp. unfold times_after, utimes_effect, timespec_of_timeval, microseconds.
    destruct p; [contradiction| |]; cbn.
    + rewrite !Z.quot_div_nonneg by lia. done.
    + unfold UINT64. rewrite !Z.mod_small by lia. done.
Qed.

End TimeFacts.

(** ** The operations at work *)

Section Runs.
#[local] Existing Instance posix_headers.
#[local] Existing Instance sim.

(** C2.  On the handle at address 1 a lock succeeds, an unlock succeeds and
    leaves [bLocked] set, a second unlock succeeds as well, without the
    message that the file is not locked, and a lock after the two unlocks
    fails with the message that the file is already locked. *)
Theorem unlock_leaves_the_handle_locked :
  ('(locked, w1) ← FileLockFileEx example_world (Ptr 1) 0 0 0 0 null;
   '(unlocked, w2) ← FileUnlockFile w1 (Ptr 1) 0 0 0 0;
   '(again, w3) ← FileUnlockFile w2 (Ptr 1) 0 0 0 0;
   '(relocked, w4) ← FileLockFileEx w3 (Ptr 1) 0 0 0 0 null;
   Some (locked, unlocked, bLocked <$> files w2 !! 1%positive, again, wlog w3,
         relocked, wlog w4))
  = Some (true, true, Some true, true, [], false, [already_locked]).
Proof. vm_compute. reflexivity. Qed.

(** Reading through NULL returns FALSE and leaves the last error at 0, not
    ERROR_INVALID_HANDLE; reading through the record of another type, at
    address 3, is not refused: it reads the three bytes of the file and
    returns TRUE. *)
Lemma FileRead_does_not_validate :
  not_handled example_world NULL ∧
  (∃ r w', FileRead example_world NULL 3 nonnull null = Some (r, w') ∧
     read_status r = false ∧ LastError w' ≠ ERROR_INVALID_HANDLE) ∧
  not_handled example_world (Ptr 3) ∧
  (∃ r w', FileRead example_world (Ptr 3) 3 nonnull null = Some (r, w') ∧
     read_status r = true ∧ read_buffer r = [Byte.x61; Byte.x62; Byte.x63] ∧
     LastError w' ≠ ERROR_INVALID_HANDLE).
Proof.
  split; [left; reflexivity|]. split.
  { eexists _, _. split; [reflexivity|]. split; [reflexivity|]. vm_compute. discriminate. }
  split.
  { right. exists 3%positive, (example_record 1 4 3).
    split; [reflexivity|]. split; [reflexivity|]. vm_compute. discriminate. }
  eexists _, _. split; [vm_compute; reflexivity|].
  split; [reflexivity|]. split; [reflexivity|]. vm_compute. discriminate.
Qed.

Lemma validation_of_handles_witness :
  not_handled example_world (Ptr 3) ∧
  FileCloseHandle example_world (Ptr 3)
    = Some (false, SetLastError ERROR_INVALID_HANDLE example_world) ∧
  FileSetFilePointer example_world NULL 0 null FILE_BEGIN
    = Some (INVALID_SET_FILE_POINTER, example_world).
Proof.
  assert (Hbad : not_handled example_world (Ptr 3)).
  { right. exists 3%positive, (example_record 1 4 3).
    split; [reflexivity|]. split; [reflexivity|]. vm_compute. discriminate. }
  destruct (validation_of_handles example_world) as (Hvalidate & Hnull & _).
  split; [exact Hbad|]. split.
  - exact (proj1 (Hvalidate (Ptr 3) Hbad)).
  - exact (proj1 (proj2 (proj2 (proj2 (proj2
             (Hnull Futimens [] 0 0 FILE_BEGIN 0 0 0 0 0 0 null null None None None)))))).
Defined.

(** Closing the handle on "log.txt" closes stream 4, of descriptor 3;
    closing the handle on the standard output leaves stream 2 open. *)
Lemma FileCloseHandle_releases_witness :
  (∃ w', FileCloseHandle example_world (Ptr 1) = Some (true, w') ∧
     os w' = fclose 4%positive example_os ∧ sim_streams (os w') !! 4%positive = None ∧
     files w' !! 1%positive = None ∧ strings w' !! 1%positive = None) ∧
  (∃ w', FileCloseHandle example_world (Ptr 2) = Some (true, w') ∧
     os w' = example_os ∧ sim_streams (os w') !! 2%positive = Some 1 ∧
     files w' !! 2%positive = None ∧ strings w' !! 2%positive = None).
Proof.
  split.
  - destruct (FileCloseHandle_releases example_world 1%positive (example_record 10 4 1))
      as (w' & Hrun & Hgt & _ & _ & _ & Hfile & Hstrings & _);
      [reflexivity | reflexivity | intros p [= <-]; vm_compute; eauto |].
    exists w'. split; [exact Hrun|].
    assert (Hos : os w' = fclose 4%positive example_os)
      by (apply (Hgt 4%positive); [reflexivity | vm_compute; reflexivity]).
    split; [exact Hos|]. split; [rewrite Hos; vm_compute; reflexivity|].
    split; [exact Hfile|]. rewrite Hstrings. vm_compute. reflexivity.
  - destruct (FileCloseHandle_releases example_world 2%positive (example_record 10 2 2))
      as (w' & Hrun & _ & Hle & _ & _ & Hfile & Hstrings & _);
      [reflexivity | reflexivity | intros p [= <-]; vm_compute; eauto |].
    exists w'. split; [exact Hrun|].
    assert (Hos : os w' = example_os)
      by (apply (Hle 2%positive); [reflexivity | vm_compute; discriminate]).
    split; [exact Hos|]. split; [rewrite Hos; vm_compute; reflexivity|].
    split; [exact Hfile|]. rewrite Hstrings. vm_compute. reflexivity.
Defined.

(** C7, as stated, fails under ANDROID: a file last read at 100 s and 1 ns is,
    after a request that gives neither time, last read at 100 s and 0 ns;
    [FileSetFileTime] itself, run on the handle at address 1, leaves the
    file with these times. *)
Lemma absent_time_is_rewritten :
  let st := sim_status example_os in
  st_atim st = {| tv_sec := 100; tv_nsec := 1 |} ∧
  st_atim (times_after Android (sim_clock example_os) st None None)
    = {| tv_sec := 100; tv_nsec := 0 |} ∧
  st_atim (times_after Android (sim_clock example_os) st None None) ≠ st_atim st ∧
  (λ '(result, w'), (result, st_atim (sim_status (os w')))) <$>
    FileSetFileTime Android example_world (Ptr 1) None None None
    = Some (true, {| tv_sec := 100; tv_nsec := 0 |}).
Proof.
  cbn zeta. split; [reflexivity|]. split; [reflexivity|].
  split; [vm_compute; discriminate|]. vm_compute. reflexivity.
Qed.

(** In the default configuration the same request on the same handle
    leaves the file last read at 100 s and 1 ns. *)
Lemma FileSetFileTime_keeps_absent_time :
  (λ '(result, w'), (result, sim_status (os w'))) <$>
    FileSetFileTime Futimens example_world (Ptr 1) None None None
    = Some (true, sim_status example_os).
Proof. vm_compute. reflexivity. Qed.

Lemma absent_time_is_kept_witness :
  let st := sim_status example_os in
  let now := sim_clock example_os in
  (0 ≤ tv_nsec (st_atim st) < 10 ^ 9 ∧ 0 ≤ tv_nsec (st_mtim st) < 10 ^ 9) ∧
  st_atim (times_after Futimens now st None None) = {| tv_sec := 100; tv_nsec := 1 |} ∧
  st_mtim (times_after FreeBSD now st None None) = {| tv_sec := 200; tv_nsec := 0 |}.
Proof.
  cbn zeta.
  assert (Ha : 0 ≤ tv_nsec (st_atim (sim_status example_os)) < 10 ^ 9) by (cbn; lia).
  assert (Hm : 0 ≤ tv_nsec (st_mtim (sim_status example_os)) < 10 ^ 9) by (cbn; lia).
  destruct (absent_time_is_kept (sim_clock example_os) (sim_status example_os) None None Ha Hm)
    as ((_ & _ & Hatime & _) & Hutimes).
  split; [split; assumption|]. split; [exact Hatime|].
  exact (proj2 (Hutimes FreeBSD ltac:(discriminate))).
Defined.

(** CREATE_ALWAYS on "new.txt" with both share flags: stream 5 is opened
    and locked; when [flock] fails nothing is left of the handle. *)
Lemma FileCreateFileA_locks_witness :
  (∃ w', FileCreateFileA example_world "new.txt" GENERIC_WRITE 3 0 CREATE_ALWAYS 0 NULL
           = Some (Ptr 4, w') ∧
     bLocked <$> files w' !! 4%positive = Some true) ∧
  (∃ w', FileCreateFileA contended_world "new.txt" GENERIC_WRITE 3 0 CREATE_ALWAYS 0 NULL
           = Some (INVALID_HANDLE_VALUE, w') ∧
     files w' = files contended_world ∧ strings w' = strings contended_world ∧
     sim_streams (os w') = sim_streams (os contended_world) ∧
     wlog w' = [flock_failed]).
Proof.
  split.
  - destruct (FileCreateFileA_locks example_world "new.txt" GENERIC_WRITE 3 0 CREATE_ALWAYS 0 NULL
                5%positive
                (FileCreateFileA_stream true "wb+" "new.txt"
                   (_strdup "new.txt" (calloc example_os).2).2).2)
      as (h & w' & Hrun & Hok & _);
      [vm_compute; reflexivity | vm_compute; reflexivity | vm_compute; reflexivity
      | vm_compute; discriminate |].
    destruct Hok as (a & file & -> & Hfresh & Hfile & Hlocked & _);
      [vm_compute; discriminate|].
    assert (a = 4%positive) as ->.
    { assert (Hrun' := Hrun). vm_compute in Hrun'. by simplify_eq. }
    exists w'. split; [exact Hrun|]. rewrite Hfile. cbn. by rewrite Hlocked.
  - destruct (FileCreateFileA_locks contended_world "new.txt" GENERIC_WRITE 3 0 CREATE_ALWAYS 0 NULL
                5%positive
                (FileCreateFileA_stream true "wb+" "new.txt"
                   (_strdup "new.txt" (calloc (os contended_world)).2).2).2)
      as (h & w' & Hrun & _ & Hfail);
      [vm_compute; reflexivity | vm_compute; reflexivity | vm_compute; reflexivity
      | vm_compute; discriminate |].
    destruct Hfail as (-> & Hfiles & Hstrings & Hos & Hlog); [vm_compute; reflexivity|].
    exists w'. split; [exact Hrun|]. split; [exact Hfiles|]. split; [exact Hstrings|].
    split; [rewrite Hos; vm_compute; reflexivity | exact Hlog].
Defined.

(** Five bytes asked of a file of three: the read fails, with three bytes
    in the buffer and a count of five; three bytes asked: it succeeds. *)
Lemma FileRead_FileWrite_exact_witness :
  (∃ r w', FileRead example_world (Ptr 1) 5 nonnull null = Some (r, w') ∧
     length (read_buffer r) = 3%nat ∧ read_status r = false) ∧
  (∃ r w', FileRead example_world (Ptr 1) 3 nonnull null = Some (r, w') ∧
     (read_status r = true → NumberOfBytesRead r = Some 3)) ∧
  FileWrite example_world (Ptr 1) [Byte.x64; Byte.x65] 2 nonnull nonnull
    = Some (false, None, WLog_ERR overlapping_not_supported example_world).
Proof.
  split; [|split].
  - destruct (FileRead_FileWrite_exact example_world 1%positive (example_record 10 4 1)
                4%positive 5 (repeat Byte.x00 5) nonnull)
      as ((r & w' & Hrun & Hbuf & _ & Hshort) & _);
      [reflexivity | reflexivity | vm_compute; split; discriminate |].
    exists r, w'. split; [exact Hrun|].
    assert (Hlen : length (read_buffer r) = 3%nat) by (rewrite Hbuf; vm_compute; reflexivity).
    split; [exact Hlen|]. apply Hshort. rewrite Hlen. vm_compute. reflexivity.
  - destruct (FileRead_FileWrite_exact example_world 1%positive (example_record 10 4 1)
                4%positive 3 (repeat Byte.x00 3) nonnull)
      as ((r & w' & Hrun & _ & Hok & _) & _);
      [reflexivity | reflexivity | vm_compute; split; discriminate |].
    exists r, w'. split; [exact Hrun|]. intros Hstatus.
    exact (proj2 (Hok Hstatus) eq_refl).
  - destruct (FileRead_FileWrite_exact example_world 1%positive (example_record 10 4 1)
                4%positive 2 [Byte.x64; Byte.x65] nonnull)
      as (_ & _ & _ & Hwrite);
      [reflexivity | reflexivity | vm_compute; split; discriminate |].
    exact Hwrite.
Defined.

(** C10, as stated, fails on a read with an OVERLAPPED structure and on a
    read through NULL: five bytes are asked for, with a place for the count,
    and nothing is stored there. *)
Lemma FileRead_count_is_not_stored :
  (∃ r w', FileRead example_world (Ptr 1) 5 nonnull nonnull = Some (r, w') ∧
     read_status r = false ∧ NumberOfBytesRead r = None ∧
     NumberOfBytesRead r ≠ Some 5) ∧
  (∃ r w', FileRead example_world NULL 5 nonnull null = Some (r, w') ∧
     read_status r = false ∧ NumberOfBytesRead r = None ∧
     NumberOfBytesRead r ≠ Some 5).
Proof. split; eexists _, _; (split; [reflexivity|]); cbn; done. Qed.

Lemma FileRead_count_is_request_witness :
  (∃ r w', FileRead example_world (Ptr 1) 5 nonnull null = Some (r, w') ∧
     length (read_buffer r) = 3%nat ∧ read_status r = false ∧
     NumberOfBytesRead r = Some 5) ∧
  (∃ r, FileRead example_world (Ptr 1) 5 nonnull nonnull
          = Some (r, WLog_ERR overlapping_not_supported example_world) ∧
     read_status r = false ∧ NumberOfBytesRead r = None).
Proof.
  destruct (FileRead_count_is_request example_world 1%positive (example_record 10 4 1)
              4%positive 5)
    as ((r & w' & Hrun & Hbuf & Hcount & Hshort) & Hoverlapped & _);
    [reflexivity | reflexivity | vm_compute; discriminate |].
  split; [|exact Hoverlapped].
  exists r, w'. split; [exact Hrun|].
  assert (Hlen : length (read_buffer r) = 3%nat) by (rewrite Hbuf; vm_compute; reflexivity).
  split; [exact Hlen|]. split; [|exact Hcount].
  apply Hshort. rewrite Hlen. vm_compute. reflexivity.
Defined.

End Runs.

(** ** What calls keep *)

Section CallFacts.
Context {OS : Type} `{Headers} `{Libc OS}.
Implicit Types (w : World OS) (file : WINPR_FILE).

Lemma handles_kept_same w w' :
  files w' = files w → strings w' = strings w → handles_kept w w'.
Proof. intros Hf Hs. split; [exact Hs|]. intros a. left. by rewrite Hf. Qed.

Lemma handles_kept_trans w1 w2 w3 :
  handles_kept w1 w2 → handles_kept w2 w3 → handles_kept w1 w3.
Proof.
  intros [Hs1 Hf1] [Hs2 Hf2]. split; [congruence|]. intros a.
  destruct (Hf1 a) as [H1|(f1 & H1 & H1')], (Hf2 a) as [H2|(f2 & H2 & H2')].
  - left. congruence.
  - right. exists f2. split; congruence.
  - right. exists f1. split; congruence.
  - right. exists f1. split; [exact H1|]. rewrite H2'. rewrite H1' in H2.
    by simplify_eq.
Qed.

Lemma handles_kept_lock w a file o :
  files w !! a = Some file →
  handles_kept w (store a (set_bLocked true file) (with_os o w)).
Proof.
  intros Hfile. split; [reflexivity|]. intros i. cbn.
  destruct (decide (a = i)) as [<-|Hne].
  - right. exists file. by rewrite lookup_insert_eq.
  - left. by rewrite lookup_insert_ne.
Qed.

(** Case analysis on a run that has a result. *)
Ltac run_inversion :=
  repeat first
    [ progress simplify_option_eq
    | match goal with
      | H : context [match ?x with _ => _ end] |- _ =>
          lazymatch x with
          | context [match _ with _ => _ end] => fail
          | _ => destruct x eqn:?
          end
      end ].

Lemma perform_kept w handle c w' : perform w handle c = Some w' → handles_kept w w'.
Proof.
  destruct c; cbn; intros Hrun; apply fmap_Some in Hrun as ([] & Hrun & ->); cbn.
  - unfold FileGetFd, FileIsHandled, deref in Hrun.
    run_inversion. all: repeat case_match; by apply handles_kept_same.
  - unfold FileRead, deref in Hrun. run_inversion. all: repeat case_match; by apply handles_kept_same.
  - unfold FileWrite, deref in Hrun. run_inversion. all: repeat case_match; by apply handles_kept_same.
  - unfold FileGetFileSize, deref in Hrun. run_inversion. all: repeat case_match; by apply handles_kept_same.
  - unfold FileSetEndOfFile, deref in Hrun. run_inversion. all: repeat case_match; by apply handles_kept_same.
  - unfold FileSetFilePointer, deref in Hrun. run_inversion. all: repeat case_match; by apply handles_kept_same.
  - unfold FileLockFileEx in Hrun.
    run_inversion. all: try (by apply handles_kept_same). all: by apply handles_kept_lock.
  - unfold FileUnlockFile, deref in Hrun. run_inversion. all: repeat case_match; by apply handles_kept_same.
  - unfold FileUnlockFileEx, deref in Hrun. run_inversion. all: repeat case_match; by apply handles_kept_same.
  - unfold FileSetFileTime, deref in Hrun. run_inversion. all: repeat case_match; by apply handles_kept_same.
Qed.

Lemma perform_all_kept calls : ∀ w w', perform_all w calls = Some w' → handles_kept w w'.
Proof.
  induction calls as [|[handle c] calls IH]; intros w w' Hrun; cbn in Hrun.
  - simplify_eq. by apply handles_kept_same.
  - destruct (perform w handle c) as [w1|] eqn:Hstep; [|done]. cbn in Hrun.
    eapply handles_kept_trans; [by eapply perform_kept | by apply IH].
Qed.

Lemma set_bLocked_same file : bLocked file = true → set_bLocked true file = file.
Proof. destruct file. cbn. by intros ->. Qed.

(** X1.  Whatever read, write, size, truncate, seek, lock, unlock, set-time
    and get-descriptor calls are made, on whatever handles, the strings stay
    as they are, no record appears, and every record stays at its address,
    either as it was, in every field, or as it was but for [bLocked], which
    is set: no other field is written, and a record that is locked is left
    as it was. *)
Theorem calls_keep_handles calls w w' :
  perform_all w calls = Some w' →
  strings w' = strings w ∧
  (∀ a, files w !! a = None → files w' !! a = None) ∧
  (∀ a file, files w !! a = Some file →
     (files w' !! a = Some file ∨ files w' !! a = Some (set_bLocked true file)) ∧
     (bLocked file = true → files w' !! a = Some file)).
Proof.
  intros [Hstrings Hfiles]%perform_all_kept. split; [exact Hstrings|]. split.
  - intros a Hnone. destruct (Hfiles a) as [Hsame|(file & Hfile & _)]; congruence.
  - intros a file Hfile. destruct (Hfiles a) as [Hsame|(file0 & Hfile0 & Hlocked)].
    + rewrite Hsame. split; [by left|done].
    + simplify_eq. split; [by right|]. intros Htrue.
      by rewrite Hlocked, set_bLocked_same.
Qed.

Lemma perform_LastError w handle c w' :
  perform w handle c = Some w' →
  LastError w' = LastError w ∨
  (LastError w' = ERROR_NO_DATA ∧ ∃ n count overlapped, c = Read_call n count overlapped) ∨
  (LastError w' = ERROR_INVALID_HANDLE ∧ c = GetFd_call).
Proof.
  destruct c; cbn; intros Hrun; apply fmap_Some in Hrun as ([] & Hrun & ->); cbn.
  - unfold FileGetFd, FileIsHandled, deref in Hrun. run_inversion. all: cbn; eauto.
  - unfold FileRead, deref in Hrun. run_inversion.
    all: repeat case_match; cbn; eauto 10.
  - unfold FileWrite, deref in Hrun. run_inversion. all: by left.
  - unfold FileGetFileSize, deref in Hrun. run_inversion. all: by left.
  - unfold FileSetEndOfFile, deref in Hrun. run_inversion. all: by left.
  - unfold FileSetFilePointer, deref in Hrun. run_inversion. all: by left.
  - unfold FileLockFileEx in Hrun. run_inversion. all: by left.
  - unfold FileUnlockFile, deref in Hrun. run_inversion. all: by left.
  - unfold FileUnlockFileEx, deref in Hrun. run_inversion. all: by left.
  - unfold FileSetFileTime, deref in Hrun. run_inversion. all: by left.
Qed.

(** X2.  Of these calls only a read sets the last error, to ERROR_NO_DATA,
    and only get-descriptor does, to ERROR_INVALID_HANDLE: after any
    sequence of them the last error is what it was, or one of these two, and
    then such a call is in the sequence. *)
Theorem calls_set_two_errors calls : ∀ w w',
  perform_all w calls = Some w' →
  LastError w' = LastError w ∨
  (LastError w' = ERROR_NO_DATA ∧
     ∃ handle n count overlapped, (handle, Read_call n count overlapped) ∈ calls) ∨
  (LastError w' = ERROR_INVALID_HANDLE ∧ ∃ handle, (handle, GetFd_call) ∈ calls).
Proof.
  induction calls as [|[handle c] calls IH]; intros w w' Hrun; cbn in Hrun.
  - simplify_eq. by left.
  - destruct (perform w handle c) as [w1|] eqn:Hstep; [|done]. cbn in Hrun.
    destruct (IH _ _ Hrun) as [Hsame|[[Herr (h & n & count & ov & Hin)]|[Herr [h Hin]]]].
    + rewrite Hsame.
      destruct (perform_LastError _ _ _ _ Hstep)
        as [?|[[? (n & count & ov & ->)]|[? ->]]]; [by left|right; left|right; right].
      * split; [done|]. exists handle, n, count, ov. apply elem_of_cons. by left.
      * split; [done|]. exists handle. apply elem_of_cons. by left.
    + right; left. split; [done|]. exists h, n, count, ov. apply elem_of_cons. by right.
    + right; right. split; [done|]. exists h. apply elem_of_cons. by right.
Qed.

End CallFacts.

(** ** A handle from its construction to its end *)

Section LifeFacts.
Context {OS : Type} `{Headers} `{Libc OS}.
Implicit Types (w : World OS) (file : WINPR_FILE).

(** The handle that [FileCreateFileA] returns. *)
Lemma FileCreateFileA_handle
    w fileName access share security disposition attributes template a w1 :
  FileCreateFileA w fileName access share security disposition attributes template
    = Some (Ptr a, w1) →
  files w !! a = None ∧
  ∃ file name s,
    files w1 = <[a := file]> (files w) ∧
    strings w !! name = None ∧ strings w1 = <[name := fileName]> (strings w) ∧
    Type_ file = HANDLE_TYPE_FILE ∧ ops file = Some fileOps ∧
    fp file = Some s ∧ lpFileName file = Some name ∧
    bLocked file = negb (Z.land share (Z.lor FILE_SHARE_READ FILE_SHARE_WRITE) =? 0) ∧
    LastError w1 = LastError w ∧ wlog w1 = wlog w.
Proof.
  rewrite FileCreateFileA_run. cbn zeta.
  pose proof (is_fresh (dom (files w))) as HpFile. apply not_elem_of_dom in HpFile.
  pose proof (is_fresh (dom (strings w))) as Hname. apply not_elem_of_dom in Hname.
  destruct (calloc (os w)) as [[] o1]; cbn [fst snd negb]; [|done].
  destruct (_strdup fileName o1) as [[] o2]; cbn [fst snd negb]; [|done].
  destruct (FileCreateFileA_stream _ _ fileName o2) as [[s|] o3]; cbn [fst snd]; [|done].
  set (pFile := fresh (dom (files w))) in *. set (name := fresh (dom (strings w))) in *.
  set (file := set_fp (Some s) _).
  destruct (FileCreateFileA_share_outcome
              (store pFile file (store_string name fileName (with_os o3 w)))
              pFile file name s share)
    as (h & w' & -> & Hout);
    [apply lookup_insert_eq | reflexivity | reflexivity | reflexivity
    | cbn; rewrite lookup_insert_eq; eauto |].
  intros [= -> ->]. cbn in Hout.
  destruct (Z.land share (Z.lor FILE_SHARE_READ FILE_SHARE_WRITE) =? 0).
  - destruct Hout as [[= <-] ->]. split; [exact HpFile|]. exists file, name, s. done.
  - destruct (_ <? 0); [by destruct Hout|].
    destruct Hout as [[= <-] ->]. split; [exact HpFile|].
    exists (set_bLocked true file), name, s. cbn. rewrite insert_insert_eq. done.
Qed.

(** X3.  A handle that [FileCreateFileA] has returned is closed by
    [FileCloseHandle] with result TRUE, and then the records and the strings
    are those from before the construction: nothing of the handle is left. *)
Theorem create_then_close
    w fileName access share security disposition attributes template a w1 :
  FileCreateFileA w fileName access share security disposition attributes template
    = Some (Ptr a, w1) →
  ∃ w2, FileCloseHandle w1 (Ptr a) = Some (true, w2) ∧
    files w2 = files w ∧ strings w2 = strings w ∧
    LastError w2 = LastError w ∧ wlog w2 = wlog w.
Proof.
  intros (Hfresh & file & name & s & Hfiles & Hname & Hstrings & Htype & _ & Hfp & Hfile
          & _ & Herr & Hlog)%FileCreateFileA_handle.
  destruct (FileCloseHandle_run w1 a file) as (w2 & Hrun & _ & _ & _ & Hf & _ & Hs & He & Hl).
  - rewrite Hfiles. apply lookup_insert_eq.
  - exact Htype.
  - intros p Hp. rewrite Hfile in Hp. simplify_eq. rewrite Hstrings, lookup_insert_eq. eauto.
  - exists w2. split; [exact Hrun|]. rewrite Hf, Hs, He, Hl, Hfile, Hfiles, Hstrings.
    rewrite !delete_insert_id; done.
Qed.

(** X4.  A handle constructed with FILE_SHARE_READ or FILE_SHARE_WRITE is
    locked from the start: every lock request on it fails as already locked.
    A handle constructed with neither is not: every unlock request on it
    fails as not locked.  Both leave all but the log as it was. *)
Theorem created_handle_lock_state
    w fileName access share security disposition attributes template a w1 :
  FileCreateFileA w fileName access share security disposition attributes template
    = Some (Ptr a, w1) →
  (Z.land share (Z.lor FILE_SHARE_READ FILE_SHARE_WRITE) ≠ 0 →
     ∀ flags reserved low high overlapped,
       FileLockFileEx w1 (Ptr a) flags reserved low high overlapped
         = Some (false, WLog_ERR already_locked w1)) ∧
  (Z.land share (Z.lor FILE_SHARE_READ FILE_SHARE_WRITE) = 0 →
     ∀ offsetLow offsetHigh reserved low high overlapped,
       FileUnlockFile w1 (Ptr a) offsetLow offsetHigh low high
         = Some (false, WLog_ERR not_locked w1) ∧
       FileUnlockFileEx w1 (Ptr a) reserved low high overlapped
         = Some (false, WLog_ERR not_locked w1)).
Proof.
  intros (_ & file & name & s & Hfiles & _ & _ & _ & _ & _ & _ & Hlocked & _)
    %FileCreateFileA_handle.
  assert (Hfile : files w1 !! a = Some file) by (rewrite Hfiles; apply lookup_insert_eq).
  split.
  - intros Hshare%Z.eqb_neq. rewrite Hshare in Hlocked. intros.
    by eapply FileLockFileEx_locked.
  - intros Hshare%Z.eqb_eq. rewrite Hshare in Hlocked. intros. split.
    + by eapply FileUnlockFile_unlocked.
    + by eapply FileUnlockFileEx_unlocked.
Qed.

(** The last error after [FileCreateFileA]. *)
Lemma FileCreateFileA_LastError
    w fileName access share security disposition attributes template h w1 :
  FileCreateFileA w fileName access share security disposition attributes template
    = Some (h, w1) →
  LastError w1 =
    if (calloc (os w)).1 && (_strdup fileName (calloc (os w)).2).1 then LastError w
    else ERROR_NOT_ENOUGH_MEMORY.
Proof.
  rewrite FileCreateFileA_run. cbn zeta.
  pose proof (is_fresh (dom (strings w))) as Hname. apply not_elem_of_dom in Hname.
  destruct (calloc (os w)) as [[] o1]; cbn [fst snd negb andb]; [|by intros [= <- <-]].
  destruct (_strdup fileName o1) as [[] o2]; cbn [fst snd negb]; [|by intros [= <- <-]].
  destruct (FileCreateFileA_stream _ _ fileName o2) as [[s|] o3]; cbn [fst snd];
    [|by intros [= <- <-]].
  set (pFile := fresh (dom (files w))) in *. set (name := fresh (dom (strings w))) in *.
  set (file := set_fp (Some s) _).
  destruct (FileCreateFileA_share_outcome
              (store pFile file (store_string name fileName (with_os o3 w)))
              pFile file name s share)
    as (h' & w' & -> & Hout);
    [apply lookup_insert_eq | reflexivity | reflexivity | reflexivity
    | cbn; rewrite lookup_insert_eq; eauto |].
  intros [= -> ->]. cbn in Hout.
  destruct (Z.land share (Z.lor FILE_SHARE_READ FILE_SHARE_WRITE) =? 0).
  - by destruct Hout as [_ ->].
  - destruct (_ <? 0).
    + by destruct Hout as (_ & _ & _ & _ & _ & ->).
    + by destruct Hout as [_ ->].
Qed.

(** X5.  [FileCreateFileA] sets the last error only when an allocation
    fails, to ERROR_NOT_ENOUGH_MEMORY: when the file cannot be opened or
    locked it returns INVALID_HANDLE_VALUE and the last error is what it was
    before the call. *)
Theorem FileCreateFileA_reports_memory_only
    w fileName access share security disposition attributes template h w1 :
  FileCreateFileA w fileName access share security disposition attributes template
    = Some (h, w1) →
  ((calloc (os w)).1 = false ∨ (_strdup fileName (calloc (os w)).2).1 = false →
     h = INVALID_HANDLE_VALUE ∧ LastError w1 = ERROR_NOT_ENOUGH_MEMORY) ∧
  ((calloc (os w)).1 = true → (_strdup fileName (calloc (os w)).2).1 = true →
     LastError w1 = LastError w).
Proof.
  intros Hrun. pose proof (FileCreateFileA_LastError _ _ _ _ _ _ _ _ _ _ Hrun) as Herr.
  split.
  - intros Hfail. split.
    + revert Hrun. rewrite FileCreateFileA_run. cbn zeta.
      destruct Hfail as [->| Hd]; cbn; [by intros [= <- _]|].
      destruct (calloc (os w)).1; cbn; [|by intros [= <- _]].
      rewrite Hd. cbn. by intros [= <- _].
    + rewrite Herr. destruct Hfail as [->| ->]; [done|]. by rewrite andb_false_r.
  - intros Hc Hd. by rewrite Herr, Hc, Hd.
Qed.

(** X6.  Of the access and the disposition [FileCreateFileA] uses the mode
    and the create-first flag alone, and of the attributes, the security
    attributes and the template nothing: two calls whose access and
    disposition resolve alike return the same handle and leave the same
    strings, last error, log, addresses in use and state of the C library.
    So CREATE_NEW is not told from CREATE_ALWAYS with write access. *)
Theorem FileCreateFileA_by_mode_only
    w fileName share access security disposition attributes template
    access' security' disposition' attributes' template' :
  FileGetMode access disposition = FileGetMode access' disposition' →
  ∃ h w1 w2,
    FileCreateFileA w fileName access share security disposition attributes template
      = Some (h, w1) ∧
    FileCreateFileA w fileName access' share security' disposition' attributes' template'
      = Some (h, w2) ∧
    os w1 = os w2 ∧ strings w1 = strings w2 ∧ LastError w1 = LastError w2 ∧
    wlog w1 = wlog w2 ∧ dom (files w1) = dom (files w2).
Proof.
  intros Hmode. rewrite !FileCreateFileA_run. cbn zeta. rewrite Hmode.
  destruct (calloc (os w)) as [[] o1]; cbn [fst snd negb];
    [|eexists _, _, _; split; [reflexivity|]; split; [reflexivity|]; done].
  destruct (_strdup fileName o1) as [[] o2]; cbn [fst snd negb];
    [|eexists _, _, _; split; [reflexivity|]; split; [reflexivity|]; done].
  destruct (FileCreateFileA_stream _ _ fileName o2) as [[s|] o3]; cbn [fst snd];
    [|eexists _, _, _; split; [reflexivity|]; split; [reflexivity|]; done].
  set (pFile := fresh (dom (files w))). set (name := fresh (dom (strings w))).
  set (file := set_fp (Some s) (created_record name access _ _ _ _ _)).
  set (file' := set_fp (Some s) (created_record name access' _ _ _ _ _)).
  destruct (FileCreateFileA_share_outcome
              (store pFile file (store_string name fileName (with_os o3 w)))
              pFile file name s share)
    as (h & w1 & -> & Hout);
    [apply lookup_insert_eq | reflexivity | reflexivity | reflexivity
    | cbn; rewrite lookup_insert_eq; eauto |].
  destruct (FileCreateFileA_share_outcome
              (store pFile file' (store_string name fileName (with_os o3 w)))
              pFile file' name s share)
    as (h' & w2 & -> & Hout');
    [apply lookup_insert_eq | reflexivity | reflexivity | reflexivity
    | cbn; rewrite lookup_insert_eq; eauto |].
  cbn in Hout, Hout'.
  destruct (Z.land share (Z.lor FILE_SHARE_READ FILE_SHARE_WRITE) =? 0).
  { destruct Hout as [-> ->], Hout' as [-> ->]. eexists _, _, _.
    split; [reflexivity|]. split; [reflexivity|]. cbn. rewrite !dom_insert_L. done. }
  destruct (_ <? 0).
  - destruct Hout as (-> & Hf & Hs & Ho & Hl & He), Hout' as (-> & Hf' & Hs' & Ho' & Hl' & He').
    eexists _, _, _. split; [reflexivity|]. split; [reflexivity|].
    rewrite Hf, Hs, Ho, Hl, He, Hf', Hs', Ho', Hl', He'. cbn.
    rewrite !dom_delete_L, !dom_insert_L. done.
  - destruct Hout as [-> ->], Hout' as [-> ->]. eexists _, _, _.
    split; [reflexivity|]. split; [reflexivity|]. cbn. rewrite !dom_insert_L. done.
Qed.

End LifeFacts.

(** ** More on single operations *)

(** Case analysis on the hypothesis that an operation has a result. *)
Ltac invert_run H :=
  repeat first
    [ progress simplify_option_eq
    | match type of H with
      | context [match ?x with _ => _ end] =>
          lazymatch x with
          | context [match _ with _ => _ end] => fail
          | _ => destruct x eqn:?
          end
      end ].

Section OperationFacts.
Context {OS : Type} `{Headers} `{Libc OS}.
Implicit Types (w : World OS) (file : WINPR_FILE).

Lemma FileCloseHandle_frees w a w' :
  FileCloseHandle w (Ptr a) = Some (true, w') → files w' !! a = None.
Proof.
  unfold FileCloseHandle, FileIsHandled, deref, free_file, free_string. intros Hrun.
  invert_run Hrun; cbn; apply lookup_delete_eq.
Qed.

(** X7.  A handle that has been closed with result TRUE is dangling: closing
    it again, and every other operation that reads its record, is undefined
    (a use of freed memory).  Three operations return before they read the
    record, and so still return on such a handle: [FileRead] and [FileWrite]
    with an OVERLAPPED structure, which return FALSE with the message that
    this is not supported (without one they read the record), and
    [FileSetFilePointer] with a move method that is none of the three, which
    returns INVALID_SET_FILE_POINTER. *)
Theorem closed_handle_is_dangling w a w' :
  FileCloseHandle w (Ptr a) = Some (true, w') →
  FileCloseHandle w' (Ptr a) = None ∧
  FileGetFd w' (Ptr a) = None ∧
  (∀ n count overlapped,
     FileRead w' (Ptr a) n count overlapped =
       match overlapped with
       | null => None
       | nonnull => Some (refused, WLog_ERR overlapping_not_supported w')
       end) ∧
  (∀ buffer n count overlapped,
     FileWrite w' (Ptr a) buffer n count overlapped =
       match overlapped with
       | null => None
       | nonnull => Some (false, None, WLog_ERR overlapping_not_supported w')
       end) ∧
  (∀ high, FileGetFileSize w' (Ptr a) high = None) ∧
  FileSetEndOfFile w' (Ptr a) = None ∧
  (∀ flags reserved low high overlapped,
     FileLockFileEx w' (Ptr a) flags reserved low high overlapped = None) ∧
  (∀ offsetLow offsetHigh low high,
     FileUnlockFile w' (Ptr a) offsetLow offsetHigh low high = None) ∧
  (∀ reserved low high overlapped,
     FileUnlockFileEx w' (Ptr a) reserved low high overlapped = None) ∧
  (∀ p creation access write,
     FileSetFileTime p w' (Ptr a) creation access write = None) ∧
  (∀ distance high method,
     FileSetFilePointer w' (Ptr a) distance high method =
       if bool_decide (method ∈ [FILE_BEGIN; FILE_END; FILE_CURRENT]) then None
       else Some (INVALID_SET_FILE_POINTER, w')).
Proof.
  intros Hgone%FileCloseHandle_frees.
  unfold FileCloseHandle, FileGetFd, FileIsHandled, FileRead, FileWrite, FileGetFileSize,
    FileSetEndOfFile, FileLockFileEx, FileUnlockFile, FileUnlockFileEx, FileSetFileTime,
    FileSetFilePointer, deref.
  rewrite Hgone. cbn.
  split; [done|]. split; [done|].
  split; [by intros n count []|]. split; [by intros buffer n count []|].
  repeat (split; [done|]).
  intros distance high method.
  destruct (Z.eqb_spec method FILE_BEGIN) as [->|Hb].
  { rewrite bool_decide_eq_true_2; [done|set_solver]. }
  destruct (Z.eqb_spec method FILE_END) as [->|He].
  { rewrite bool_decide_eq_true_2; [done|set_solver]. }
  destruct (Z.eqb_spec method FILE_CURRENT) as [->|Hc].
  { rewrite bool_decide_eq_true_2; [done|set_solver]. }
  rewrite bool_decide_eq_false_2; [done|].
  rewrite !not_elem_of_cons. repeat split; [done..|apply not_elem_of_nil].
Qed.

(** X8.  A read of zero bytes and a write of zero bytes on a valid handle
    return FALSE, whatever the C library does: [fread] and [fwrite] count no
    item of size zero. *)
Theorem zero_bytes_fail w a file s lpBuffer count :
  files w !! a = Some file → fp file = Some s →
  (∃ r w', FileRead w (Ptr a) 0 count null = Some (r, w') ∧ read_status r = false) ∧
  (∃ w', FileWrite w (Ptr a) lpBuffer 0 count null = Some (false, None, w')).
Proof.
  intros Hfile Hfp. split.
  - unfold FileRead, deref. rewrite Hfile. cbn. rewrite Hfp. cbn.
    destruct (fread 0 1 s (os w)) as [data o]. cbn.
    destruct (errno o =? EWOULDBLOCK); eexists _, _; split; reflexivity.
  - unfold FileWrite, deref. rewrite Hfile. cbn. rewrite Hfp. cbn.
    destruct (Z.ltb_spec (Z.of_nat (length lpBuffer)) 0) as [?|_]; [lia|].
    destruct (fwrite _ 0 1 s (os w)) as [written o]. cbn. eauto.
Qed.

(** X9.  A read on a valid handle without OVERLAPPED structure makes one
    call of [fread] and changes the last error in one case only: [fread]
    did not return one item and [errno] is EWOULDBLOCK afterwards, whether
    [fread] stored it or an earlier call did; the last error is then
    ERROR_NO_DATA.  A read that succeeds never changes it.  A read with an
    OVERLAPPED structure returns FALSE without a call of the C library and
    leaves the last error as it was, whatever [errno] is: it only logs. *)
Theorem FileRead_last_error w a file s n count overlapped r w' :
  files w !! a = Some file → fp file = Some s →
  FileRead w (Ptr a) n count overlapped = Some (r, w') →
  (overlapped = null →
     os w' = (fread n 1 s (os w)).2 ∧
     LastError w' =
       if negb (read_status r) && (errno (os w') =? EWOULDBLOCK) then ERROR_NO_DATA
       else LastError w) ∧
  (overlapped = nonnull →
     read_status r = false ∧ os w' = os w ∧ LastError w' = LastError w ∧
     w' = WLog_ERR overlapping_not_supported w).
Proof.
  intros Hfile Hfp. destruct overlapped.
  - unfold FileRead, deref. rewrite Hfile. cbn. rewrite Hfp. cbn.
    destruct (fread n 1 s (os w)) as [data o]. cbn.
    destruct (items n (Z.of_nat (length data)) =? 1); cbn.
    + intros [= <- <-]. done.
    + destruct (errno o =? EWOULDBLOCK) eqn:Herrno; intros [= <- <-]; cbn;
        rewrite ?Herrno; done.
  - cbn. intros [= <- <-]. done.
Qed.

(** X10.  [FileGetFileSize] on a valid handle makes up to four calls of the
    C library: [ftell], [fseek] to the end, [ftell], [fseek] back to the
    position the first [ftell] gave.  When none of them fails, the result is
    the position that the second [ftell] gave, the size, reduced modulo
    [2^32]; the high part, if one is asked for, is zero; nothing is logged;
    and the C library is left by the [fseek] back.  When one of them fails,
    the result is INVALID_FILE_SIZE, no high part is stored and one message
    is logged.  It never changes the last error. *)
Theorem FileGetFileSize_outcome w a file s high r h w' :
  let before := ftell s (os w) in
  let to_end := fseek s 0 SEEK_END before.2 in
  let at_end := ftell s to_end.2 in
  let back := fseek s before.1 SEEK_SET at_end.2 in
  files w !! a = Some file → fp file = Some s →
  FileGetFileSize w (Ptr a) high = Some (r, h, w') →
  LastError w' = LastError w ∧
  ((0 ≤ before.1 ∧ to_end.1 = 0 ∧ 0 ≤ at_end.1 ∧ back.1 = 0 ∧
    r = at_end.1 mod 2 ^ 32 ∧ 0 ≤ r < 2 ^ 32 ∧ wlog w' = wlog w ∧
    h = match high with nonnull => Some 0 | null => None end ∧
    os w' = back.2) ∨
   ((before.1 < 0 ∨ to_end.1 ≠ 0 ∨ at_end.1 < 0 ∨ back.1 ≠ 0) ∧
    r = INVALID_FILE_SIZE ∧ h = None ∧
    ∃ m, m ∈ [ftell_failed; fseek_failed] ∧ wlog w' = wlog w ++ [m])).
Proof.
  cbn zeta. intros Hfile Hfp.
  unfold FileGetFileSize, deref. rewrite Hfile. cbn. rewrite Hfp. cbn.
  destruct (ftell s (os w)) as [cur o1]. cbn [fst snd].
  destruct (Z.ltb_spec cur 0) as [Hcur|Hcur].
  { intros [= <- <- <-]. split; [done|]. right. split; [by left|].
    repeat split. exists ftell_failed. split; [set_solver|done]. }
  destruct (fseek s 0 SEEK_END o1) as [rc o2]. cbn [fst snd].
  destruct (Z.eqb_spec rc 0) as [->|Hrc]; cbn [negb].
  2:{ intros [= <- <- <-]. split; [done|]. right. split; [right; by left|].
      repeat split. exists fseek_failed. split; [set_solver|done]. }
  destruct (ftell s o2) as [size o3]. cbn [fst snd].
  destruct (Z.ltb_spec size 0) as [Hneg|Hpos].
  { intros [= <- <- <-]. split; [done|]. right. split; [right; right; by left|].
    repeat split. exists ftell_failed. split; [set_solver|done]. }
  destruct (fseek s cur SEEK_SET o3) as [rc' o4]. cbn [fst snd].
  destruct (Z.eqb_spec rc' 0) as [->|Hrc']; cbn [negb].
  2:{ intros [= <- <- <-]. split; [done|]. right. split; [by do 3 right|].
      repeat split. exists ftell_failed. split; [set_solver|done]. }
  intros [= <- <- <-]. split; [done|]. left.
  do 5 (split; [done|]). split; [apply Z.mod_pos_bound; lia|]. done.
Qed.

(** X11.  [FileSetFilePointer] on a valid handle: with a move method that is
    none of FILE_BEGIN, FILE_END and FILE_CURRENT it returns
    INVALID_SET_FILE_POINTER and does nothing at all, not even log; with one
    of the three it either returns a position below [2^32] without a message,
    or INVALID_SET_FILE_POINTER with the message that [fseek] failed.  The
    high part of the distance plays no role. *)
Theorem FileSetFilePointer_outcome w a file s distance high method r w' :
  files w !! a = Some file → fp file = Some s →
  FileSetFilePointer w (Ptr a) distance high method = Some (r, w') →
  FileSetFilePointer w (Ptr a) distance null method = Some (r, w') ∧
  (method ∉ [FILE_BEGIN; FILE_END; FILE_CURRENT] →
     r = INVALID_SET_FILE_POINTER ∧ w' = w) ∧
  (method ∈ [FILE_BEGIN; FILE_END; FILE_CURRENT] →
     (0 ≤ r < 2 ^ 32 ∧ wlog w' = wlog w) ∨
     (r = INVALID_SET_FILE_POINTER ∧ wlog w' = wlog w ++ [fseek_failed])).
Proof.
  intros Hfile Hfp Hrun. split; [exact Hrun|]. revert Hrun.
  unfold FileSetFilePointer, deref. rewrite Hfile. cbn. rewrite Hfp. cbn.
  assert (Hseek : ∀ whence,
    (let '(rc, o) := fseek s distance whence (os w) in
     if negb (rc =? 0)
     then Some (INVALID_SET_FILE_POINTER, WLog_ERR fseek_failed (with_os o w))
     else let '(pos, o0) := ftell s o in Some (pos mod 2 ^ 32, with_os o0 w))
      = Some (r, w') →
    (0 ≤ r < 2 ^ 32 ∧ wlog w' = wlog w) ∨
    (r = INVALID_SET_FILE_POINTER ∧ wlog w' = wlog w ++ [fseek_failed])).
  { intros whence. destruct (fseek s distance whence (os w)) as [rc o].
    destruct (rc =? 0); cbn [negb].
    - destruct (ftell s o) as [pos o0]. intros [= <- <-]. left.
      split; [apply Z.mod_pos_bound; lia|done].
    - intros [= <- <-]. by right. }
  destruct (Z.eqb_spec method FILE_BEGIN) as [->|Hb].
  { intros Hrun. split; [set_solver|]. intros _. by eapply Hseek. }
  destruct (Z.eqb_spec method FILE_END) as [->|He].
  { intros Hrun. split; [set_solver|]. intros _. by eapply Hseek. }
  destruct (Z.eqb_spec method FILE_CURRENT) as [->|Hc].
  { intros Hrun. split; [set_solver|]. intros _. by eapply Hseek. }
  intros [= <- <-]. split; [done|].
  rewrite !elem_of_cons, elem_of_nil. intros [?|[?|[?|[]]]]; done.
Qed.

(** X12.  A handle that is locked stays so for its life: after any sequence
    of read, write, size, truncate, seek, lock, unlock, set-time and
    get-descriptor calls, unlocks included, every lock request on it fails
    as already locked. *)
Theorem lock_is_for_life calls w w' a file :
  files w !! a = Some file → bLocked file = true →
  perform_all w calls = Some w' →
  ∀ flags reserved low high overlapped,
    FileLockFileEx w' (Ptr a) flags reserved low high overlapped
      = Some (false, WLog_ERR already_locked w').
Proof.
  intros Hfile Hlocked [_ Hfiles]%perform_all_kept. intros.
  destruct (Hfiles a) as [Hsame|(file0 & Hfile0 & Hset)].
  - eapply FileLockFileEx_locked; [by rewrite Hsame|done].
  - by eapply FileLockFileEx_locked.
Qed.

End OperationFacts.

(** ** Times that are given *)

Section GivenTimeFacts.
Context `{Headers}.

Lemma timespec_of_FILETIME_bounds ft :
  0 ≤ tv_sec (timespec_of_FILETIME ft) ∧ 0 ≤ tv_nsec (timespec_of_FILETIME ft) < 10 ^ 7.
Proof.
  unfold timespec_of_FILETIME, UINT64. cbn [tv_sec tv_nsec].
  pose proof (Z.mod_pos_bound (FILETIME_value ft - EPOCH_DIFF) (2 ^ 64) ltac:(lia)).
  split.
  - apply Z.div_pos; [apply Z.div_pos|]; lia.
  - apply Z.mod_pos_bound. lia.
Qed.

(** X13.  Where the special values UTIME_OMIT and UTIME_NOW are not below
    [10^7] (they are [2^30 - 2] and [2^30 - 1] on Linux), a time that is given
    is never taken for one of them: in the default configuration the file
    gets the very element computed from the [FILETIME].  The sub-second field
    of that element is below [10^7]: whatever time is asked for, the file's
    time is set within the first hundredth of a second. *)
Theorem given_time_is_set (now : timespec) (st : stat) (ft : FILETIME)
    (other : option FILETIME) :
  ¬ (0 ≤ UTIME_OMIT < 10 ^ 7) → ¬ (0 ≤ UTIME_NOW < 10 ^ 7) →
  st_atim (times_after Futimens now st (Some ft) other) = timespec_of_FILETIME ft ∧
  st_mtim (times_after Futimens now st other (Some ft)) = timespec_of_FILETIME ft ∧
  0 ≤ tv_sec (timespec_of_FILETIME ft) ∧
  0 ≤ tv_nsec (timespec_of_FILETIME ft) < 10 ^ 7.
Proof.
  intros Homit Hnow. pose proof (timespec_of_FILETIME_bounds ft) as [Hsec Hnsec].
  assert (Hentry : ∀ current,
            futimens_entry now current (timespec_of_FILETIME ft) = timespec_of_FILETIME ft).
  { intros current. unfold futimens_entry.
    destruct (Z.eqb_spec (tv_nsec (timespec_of_FILETIME ft)) UTIME_OMIT) as [Heq|_];
      [rewrite Heq in Hnsec; contradiction|].
    destruct (Z.eqb_spec (tv_nsec (timespec_of_FILETIME ft)) UTIME_NOW) as [Heq|_];
      [rewrite Heq in Hnsec; contradiction|].
    reflexivity. }
  unfold times_after, futimens_effect. cbn. rewrite !Hentry. done.
Qed.

(** X14.  From the same [FILETIME] the configurations that call [utimes]
    compute a tenth of the seconds that the default configuration computes,
    and a sub-second field below [10^4] microseconds: the time a file gets
    depends on the platform, by a factor of ten in the seconds. *)
Theorem timeval_seconds_are_a_tenth (ft : FILETIME) :
  tv_sec' (timeval_of_FILETIME ft) = tv_sec (timespec_of_FILETIME ft) / 10 ∧
  0 ≤ tv_usec (timeval_of_FILETIME ft) < 10 ^ 4 ∧
  (0 < tv_sec (timespec_of_FILETIME ft) →
     tv_sec' (timeval_of_FILETIME ft) < tv_sec (timespec_of_FILETIME ft)) ∧
  (∀ p now st other, p ≠ Futimens →
     tv_sec (st_atim (times_after p now st (Some ft) other))
       = tv_sec (timespec_of_FILETIME ft) / 10 ∧
     tv_sec (st_mtim (times_after p now st other (Some ft)))
       = tv_sec (timespec_of_FILETIME ft) / 10).
Proof.
  assert (Hsec : tv_sec' (timeval_of_FILETIME ft) = tv_sec (timespec_of_FILETIME ft) / 10).
  { unfold timeval_of_FILETIME, timespec_of_FILETIME. cbn [tv_sec' tv_sec].
    rewrite !Z.div_div by lia. reflexivity. }
  split; [exact Hsec|]. split; [|split].
  - unfold timeval_of_FILETIME. cbn [tv_usec]. apply Z.mod_pos_bound. lia.
  - intros Hpos. rewrite Hsec. apply Z.div_lt; lia.
  - intros p now st other Hp. destruct p; [contradiction| |];
      cbn -[timeval_of_FILETIME timespec_of_FILETIME]; rewrite Hsec; done.
Qed.

End GivenTimeFacts.

(** ** Facts about the handles on open streams *)

Section AdoptionFacts.
Context {OS : Type} `{Headers} `{StdioHeaders} `{Libc OS} `{Stdio OS}.
Implicit Types (w : World OS) (file : WINPR_FILE).

(** What [FileHandle_New] returns: NULL, with the last error set, when
    [calloc] fails, and else a new record on the stream, named after its
    descriptor, or without a name when [_strdup] fails. *)
Lemma FileHandle_New_run w stream :
  ∃ h w1, FileHandle_New w stream = Some (h, w1) ∧ wlog w1 = wlog w ∧
    ((h = NULL ∧ files w1 = files w ∧ strings w1 = strings w ∧
      LastError w1 = ERROR_NOT_ENOUGH_MEMORY ∧ os w1 = (calloc (os w)).2) ∨
     (∃ a file, h = Ptr a ∧ files w !! a = None ∧ files w1 = <[a := file]> (files w) ∧
        Type_ file = HANDLE_TYPE_FILE ∧ ops file = Some shmOps ∧ fp file = Some stream ∧
        bLocked file = false ∧ LastError w1 = LastError w ∧
        os w1 = (_strdup (device_name (fileno stream (os w))) (calloc (os w)).2).2 ∧
        ((lpFileName file = None ∧ strings w1 = strings w) ∨
         (∃ p, lpFileName file = Some p ∧ strings w !! p = None ∧
            strings w1 = <[p := device_name (fileno stream (os w))]> (strings w))))).
Proof.
  unfold FileHandle_New.
  pose proof (is_fresh (dom (files w))) as HpFile. apply not_elem_of_dom in HpFile.
  pose proof (is_fresh (dom (strings w))) as Hname. apply not_elem_of_dom in Hname.
  destruct (calloc (os w)) as [[] o1]; cbn [negb fst snd].
  2:{ eexists _, _. split; [reflexivity|]. split; [reflexivity|]. left. done. }
  unfold assign, store, store_string, with_os. cbn.
  rewrite !lookup_insert_eq. cbn. rewrite !lookup_insert_eq. cbn.
  destruct (_strdup _ o1) as [[] o2]; cbn; rewrite !lookup_insert_eq; cbn;
    rewrite ?lookup_insert_eq; cbn.
  - eexists _, _. split; [reflexivity|]. split; [reflexivity|]. right.
    eexists _, _. split; [reflexivity|]. split; [exact HpFile|]. cbn.
    rewrite !insert_insert_eq. split; [reflexivity|]. repeat (split; [reflexivity|]).
    right. eexists. split; [reflexivity|]. split; [exact Hname|reflexivity].
  - eexists _, _. split; [reflexivity|]. split; [reflexivity|]. right.
    eexists _, _. split; [reflexivity|]. split; [exact HpFile|]. cbn.
    rewrite !insert_insert_eq. split; [reflexivity|]. repeat (split; [reflexivity|]).
    left. done.
Qed.

(** Closing a handle that [FileHandle_New] has returned. *)
Lemma FileHandle_New_close w stream a w1 :
  FileHandle_New w stream = Some (Ptr a, w1) →
  ∃ w2, FileCloseHandle w1 (Ptr a) = Some (true, w2) ∧
    files w2 = files w ∧ strings w2 = strings w ∧
    LastError w2 = LastError w ∧ wlog w2 = wlog w ∧
    os w2 = if fileno stream (os w1) >? 2 then fclose stream (os w1) else os w1.
Proof.
  intros Hrun. destruct (FileHandle_New_run w stream) as (h & w1' & Hrun' & Hlog & Hout).
  rewrite Hrun in Hrun'. injection Hrun' as <- <-.
  destruct Hout as [(? & _)|(a' & file & [= <-] & Hfresh & Hfiles & Htype & _ & Hfp & _
                              & Herr & _ & Hname)]; [done|].
  destruct (FileCloseHandle_run w1 a file)
    as (w2 & Hclose & Hgt & Hle & _ & Hf & _ & Hs & He & Hl).
  - rewrite Hfiles. apply lookup_insert_eq.
  - exact Htype.
  - intros p Hp. destruct Hname as [[Hnone _]|(q & Hq & _ & Hstrings)]; [congruence|].
    rewrite Hq in Hp. simplify_eq. rewrite Hstrings, lookup_insert_eq. eauto.
  - exists w2. split; [exact Hclose|]. rewrite Hf, Hs, He, Hl, Hfiles.
    rewrite delete_insert_id by done. split; [done|]. split.
    { destruct Hname as [[-> ->]|(q & -> & Hfreshq & ->)]; [done|].
      by rewrite delete_insert_id. }
    split; [done|]. split; [done|].
    destruct (Z.gtb_spec (fileno stream (os w1)) 2).
    + apply (Hgt stream); [done|lia].
    + apply (Hle stream); done.
Qed.

(** What [adopted <$> FileHandle_New w stream] returns. *)
Lemma adopted_run w stream :
  ∃ h w1, adopted <$> FileHandle_New w stream = Some (h, w1) ∧ h ≠ NULL ∧
    wlog w1 = wlog w ∧
    match h with
    | Ptr a =>
        FileHandle_New w stream = Some (Ptr a, w1) ∧
        files w !! a = None ∧ LastError w1 = LastError w ∧
        ∃ file, files w1 = <[a := file]> (files w) ∧ Type_ file = HANDLE_TYPE_FILE ∧
          ops file = Some shmOps ∧ fp file = Some stream ∧ bLocked file = false
    | _ =>
        files w1 = files w ∧ strings w1 = strings w ∧
        LastError w1 = ERROR_NOT_ENOUGH_MEMORY ∧ os w1 = (calloc (os w)).2
    end.
Proof.
  destruct (FileHandle_New_run w stream) as (h & w1 & Hrun & Hlog & Hout).
  rewrite Hrun. cbn.
  destruct Hout as [(-> & Hf & Hs & He & Ho)|(a & file & -> & Hfresh & Hfiles & Htype & Hops
                                             & Hfp & Hlocked & Herr & _)].
  - eexists _, _. split; [reflexivity|]. cbn. done.
  - eexists _, _. split; [reflexivity|]. cbn. split; [done|]. split; [done|].
    split; [done|]. split; [done|]. split; [done|]. by exists file.
Qed.

(** X15.  [GetStdHandle] always returns, and never NULL.  An identifier that
    is none of the three gives INVALID_HANDLE_VALUE and changes nothing.  A
    handle that it returns is a new record, at an address that was free, on
    one of the three standard streams, with the reduced table [shmOps]: each
    call makes a handle of its own.  When it returns INVALID_HANDLE_VALUE no
    record and no string has been added. *)
Theorem GetStdHandle_outcome w (nStdHandle : Z) :
  ∃ h w1, GetStdHandle w nStdHandle = Some (h, w1) ∧ h ≠ NULL ∧ wlog w1 = wlog w ∧
    (nStdHandle ∉ [STD_INPUT_HANDLE; STD_OUTPUT_HANDLE; STD_ERROR_HANDLE] →
       h = INVALID_HANDLE_VALUE ∧ w1 = w) ∧
    match h with
    | Ptr a =>
        files w !! a = None ∧ LastError w1 = LastError w ∧
        ∃ file stream, files w1 = <[a := file]> (files w) ∧
          Type_ file = HANDLE_TYPE_FILE ∧ ops file = Some shmOps ∧
          fp file = Some stream ∧ stream ∈ [stdin; stdout; stderr] ∧ bLocked file = false
    | _ => files w1 = files w ∧ strings w1 = strings w
    end.
Proof.
  unfold GetStdHandle.
  assert (Hstream : ∀ stream, stream ∈ [stdin; stdout; stderr] →
    ∃ h w1, adopted <$> FileHandle_New w stream = Some (h, w1) ∧ h ≠ NULL ∧
      wlog w1 = wlog w ∧
      match h with
      | Ptr a =>
          files w !! a = None ∧ LastError w1 = LastError w ∧
          ∃ file stream, files w1 = <[a := file]> (files w) ∧
            Type_ file = HANDLE_TYPE_FILE ∧ ops file = Some shmOps ∧
            fp file = Some stream ∧ stream ∈ [stdin; stdout; stderr] ∧ bLocked file = false
      | _ => files w1 = files w ∧ strings w1 = strings w
      end).
  { intros stream Hin. destruct (adopted_run w stream) as (h & w1 & -> & Hnull & Hlog & Hout).
    exists h, w1. split; [done|]. split; [done|]. split; [done|].
    destruct h as [| |a]; [done|by destruct Hout as (? & ? & _)|].
    destruct Hout as (_ & ? & ? & file & ? & ? & ? & ? & ?).
    split; [done|]. split; [done|]. exists file, stream. done. }
  destruct (Z.eqb_spec nStdHandle STD_INPUT_HANDLE) as [->|Hi].
  { destruct (Hstream stdin) as (h & w1 & -> & ? & ? & ?);
      [apply elem_of_cons; by left|].
    exists h, w1. repeat (split; [done|]). split; [|done].
    rewrite !not_elem_of_cons. by intros (? & _). }
  destruct (Z.eqb_spec nStdHandle STD_OUTPUT_HANDLE) as [->|Ho].
  { destruct (Hstream stdout) as (h & w1 & -> & ? & ? & ?);
      [apply elem_of_cons; right; apply elem_of_cons; by left|].
    exists h, w1. repeat (split; [done|]). split; [|done].
    rewrite !not_elem_of_cons. by intros (_ & ? & _). }
  destruct (Z.eqb_spec nStdHandle STD_ERROR_HANDLE) as [->|He].
  { destruct (Hstream stderr) as (h & w1 & -> & ? & ? & ?);
      [do 2 (apply elem_of_cons; right); apply elem_of_cons; by left|].
    exists h, w1. repeat (split; [done|]). split; [|done].
    rewrite !not_elem_of_cons. by intros (_ & _ & ? & _). }
  exists INVALID_HANDLE_VALUE, w. done.
Qed.

(** X16.  A handle that [GetStdHandle] has returned is closed by
    [FileCloseHandle] with result TRUE, also when its name could not be
    allocated; the records and the strings are then those from before
    [GetStdHandle], and the standard stream is left open when its descriptor
    is 2 or less: the C library is not called. *)
Theorem std_handle_close w (nStdHandle : Z) a w1 :
  GetStdHandle w nStdHandle = Some (Ptr a, w1) →
  ∃ stream w2, stream ∈ [stdin; stdout; stderr] ∧
    FileCloseHandle w1 (Ptr a) = Some (true, w2) ∧
    files w2 = files w ∧ strings w2 = strings w ∧
    LastError w2 = LastError w ∧ wlog w2 = wlog w ∧
    os w2 = if fileno stream (os w1) >? 2 then fclose stream (os w1) else os w1.
Proof.
  unfold GetStdHandle.
  assert (Hstream : ∀ stream, stream ∈ [stdin; stdout; stderr] →
    adopted <$> FileHandle_New w stream = Some (Ptr a, w1) →
    ∃ stream w2, stream ∈ [stdin; stdout; stderr] ∧
      FileCloseHandle w1 (Ptr a) = Some (true, w2) ∧
      files w2 = files w ∧ strings w2 = strings w ∧
      LastError w2 = LastError w ∧ wlog w2 = wlog w ∧
      os w2 = if fileno stream (os w1) >? 2 then fclose stream (os w1) else os w1).
  { intros stream Hin Hrun.
    destruct (adopted_run w stream) as (h & w1' & Hrun' & _ & _ & Hout).
    rewrite Hrun in Hrun'. injection Hrun' as <- <-. destruct Hout as (Hnew & _).
    destruct (FileHandle_New_close _ _ _ _ Hnew) as (w2 & ?).
    by exists stream, w2. }
  destruct (nStdHandle =? STD_INPUT_HANDLE).
  { apply Hstream. apply elem_of_cons; by left. }
  destruct (nStdHandle =? STD_OUTPUT_HANDLE).
  { apply Hstream. apply elem_of_cons; right; apply elem_of_cons; by left. }
  destruct (nStdHandle =? STD_ERROR_HANDLE).
  { apply Hstream. do 2 (apply elem_of_cons; right); apply elem_of_cons; by left. }
  done.
Qed.

(** [FileHandle_New] returns NULL when [calloc] fails, and only then. *)
Lemma FileHandle_New_allocation w stream h w1 :
  FileHandle_New w stream = Some (h, w1) →
  if (calloc (os w)).1 then ∃ a, h = Ptr a else h = NULL.
Proof.
  unfold FileHandle_New.
  destruct (calloc (os w)) as [[] o1]; cbn [negb fst snd]; [|by intros [= <- _]].
  unfold assign, store, store_string, with_os. cbn.
  rewrite !lookup_insert_eq. cbn. rewrite !lookup_insert_eq. cbn.
  destruct (_strdup _ o1) as [[] o2]; cbn; rewrite !lookup_insert_eq; cbn;
    rewrite ?lookup_insert_eq; cbn; intros [= <- _]; eauto.
Qed.

(** X17.  [GetFileHandleForFileDescriptor] always returns, and never NULL;
    it logs nothing.  A handle that it returns is a new record with the
    reduced table [shmOps], on the stream that [fdopen] made on the
    descriptor, in mode "wb" when the descriptor's flags have the bit
    O_WRONLY and "rb" when they have not.  When it returns
    INVALID_HANDLE_VALUE no record and no string has been added.  When the
    descriptor is refused (the first [fcntl] returns -1 with [errno] at
    EBADF, or the second returns -1) or [fdopen] makes no stream, it returns
    INVALID_HANDLE_VALUE and the last error is as before.  When [fdopen] has
    made a stream and [calloc] then fails, it returns INVALID_HANDLE_VALUE,
    the last error is ERROR_NOT_ENOUGH_MEMORY and the C library is left as
    [calloc] left it: the stream is not closed.  When [calloc] succeeds it
    returns a handle. *)
Theorem descriptor_handle_outcome w (fd : Z) :
  let probe := fcntl fd F_GETFD (os w) in
  let flags := (descriptor_flags fd (os w)).1 in
  let opened := fdopen fd (descriptor_mode flags) (descriptor_flags fd (os w)).2 in
  let refused_fd := (probe.1 =? -1) && (errno probe.2 =? EBADF) || (flags =? -1) in
  ∃ h w1, GetFileHandleForFileDescriptor w fd = Some (h, w1) ∧ h ≠ NULL ∧
    wlog w1 = wlog w ∧
    match h with
    | Ptr a =>
        files w !! a = None ∧ LastError w1 = LastError w ∧
        ∃ file s, files w1 = <[a := file]> (files w) ∧
          Type_ file = HANDLE_TYPE_FILE ∧ ops file = Some shmOps ∧
          fp file = Some s ∧ opened.1 = Some s ∧ bLocked file = false
    | _ =>
        files w1 = files w ∧ strings w1 = strings w ∧
        (LastError w1 = LastError w ∨
         LastError w1 = ERROR_NOT_ENOUGH_MEMORY ∧
         ∃ s, opened.1 = Some s ∧ os w1 = (calloc (setvbuf s _IONBF opened.2)).2)
    end ∧
    (refused_fd = true ∨ opened.1 = None →
       h = INVALID_HANDLE_VALUE ∧ LastError w1 = LastError w) ∧
    (∀ s, refused_fd = false → opened.1 = Some s →
       let allocation := calloc (setvbuf s _IONBF opened.2) in
       (allocation.1 = false →
          h = INVALID_HANDLE_VALUE ∧ LastError w1 = ERROR_NOT_ENOUGH_MEMORY ∧
          os w1 = allocation.2) ∧
       (allocation.1 = true → ∃ a, h = Ptr a)).
Proof.
  cbn zeta. unfold GetFileHandleForFileDescriptor, descriptor_flags, descriptor_mode.
  destruct (fcntl fd F_GETFD (os w)) as [rc o1]. cbn [fst snd].
  destruct ((rc =? -1) && (errno o1 =? EBADF)); cbn [orb].
  { exists INVALID_HANDLE_VALUE, (with_os o1 w). cbn. do 3 (split; [done|]).
    split; [split; [done|]; split; [done|]; by left|]. split; done. }
  destruct (fcntl fd F_GETFL o1) as [flags o2]. cbn [fst snd].
  destruct (flags =? -1).
  { exists INVALID_HANDLE_VALUE, (with_os o2 w). cbn. do 3 (split; [done|]).
    split; [split; [done|]; split; [done|]; by left|]. split; done. }
  assert (Hmode : (if negb (Z.land flags O_WRONLY =? 0)
                   then fdopen fd "wb" o2 else fdopen fd "rb" o2)
                  = fdopen fd (if Z.land flags O_WRONLY =? 0 then "rb" else "wb") o2)
    by (by destruct (Z.land flags O_WRONLY =? 0)).
  rewrite Hmode. clear Hmode.
  destruct (fdopen fd _ o2) as [[s|] o3]. cbn [fst snd].
  2:{ exists INVALID_HANDLE_VALUE, (with_os o3 w). cbn. do 3 (split; [done|]).
      split; [split; [done|]; split; [done|]; by left|]. split; done. }
  destruct (adopted_run (with_os (setvbuf s _IONBF o3) w) s)
    as (h & w1 & Hrun & Hnull & Hlog & Hout).
  rewrite Hrun. apply fmap_Some in Hrun as ([h0 w0] & Hnew & Hadopted).
  apply FileHandle_New_allocation in Hnew. cbn [os with_os] in Hnew.
  exists h, w1. split; [done|]. split; [done|]. split; [done|].
  destruct h as [| |a]; [done| |].
  - destruct Hout as (? & ? & Herr & Hos). cbn [os with_os] in Hos.
    split; [|split].
    + split; [done|]. split; [done|]. right. split; [done|]. by exists s.
    + intros [?|?]; done.
    + intros s' _ [= <-]. cbn zeta. split; [done|].
      intros Hok. rewrite Hok in Hnew. destruct Hnew as [a ->].
      by destruct w0.
  - destruct Hout as (_ & ? & Herr & file & ? & ? & ? & ? & ?).
    split; [|split].
    + split; [done|]. split; [done|]. by exists file, s.
    + intros [?|?]; done.
    + intros s' _ [= <-]. cbn zeta. split; [|by eauto].
      intros Hfail. rewrite Hfail in Hnew. subst h0. by destruct w0.
Qed.

(** X18.  A handle that [GetFileHandleForFileDescriptor] has returned is
    closed by [FileCloseHandle] with result TRUE; the records and the strings
    are then those from before, and the stream that was made on the
    descriptor is closed with [fclose] when its descriptor is greater than 2
    and left open when it is not. *)
Theorem descriptor_handle_close w (fd : Z) a w1 :
  GetFileHandleForFileDescriptor w fd = Some (Ptr a, w1) →
  ∃ s w2,
    (fdopen fd (descriptor_mode (descriptor_flags fd (os w)).1)
       (descriptor_flags fd (os w)).2).1 = Some s ∧
    FileCloseHandle w1 (Ptr a) = Some (true, w2) ∧
    files w2 = files w ∧ strings w2 = strings w ∧
    LastError w2 = LastError w ∧ wlog w2 = wlog w ∧
    os w2 = if fileno s (os w1) >? 2 then fclose s (os w1) else os w1.
Proof.
  unfold GetFileHandleForFileDescriptor, descriptor_flags, descriptor_mode.
  destruct (fcntl fd F_GETFD (os w)) as [rc o1]. cbn [fst snd].
  destruct ((rc =? -1) && (errno o1 =? EBADF)); [done|].
  destruct (fcntl fd F_GETFL o1) as [flags o2]. cbn [fst snd].
  destruct (flags =? -1); [done|].
  assert (Hmode : (if negb (Z.land flags O_WRONLY =? 0)
                   then fdopen fd "wb" o2 else fdopen fd "rb" o2)
                  = fdopen fd (if Z.land flags O_WRONLY =? 0 then "rb" else "wb") o2)
    by (by destruct (Z.land flags O_WRONLY =? 0)).
  rewrite Hmode. clear Hmode.
  destruct (fdopen fd _ o2) as [[s|] o3]; cbn [fst snd]; [|done].
  intros Hrun.
  destruct (adopted_run (with_os (setvbuf s _IONBF o3) w) s)
    as (h & w1' & Hrun' & _ & _ & Hout).
  rewrite Hrun in Hrun'. injection Hrun' as <- <-. destruct Hout as (Hnew & _).
  destruct (FileHandle_New_close _ _ _ _ Hnew) as (w2 & ?).
  by exists s, w2.
Qed.

End AdoptionFacts.

(** ** More of the operations at work *)

Section MoreRuns.
#[local] Existing Instance posix_headers.
#[local] Existing Instance sim.
#[local] Existing Instance posix_stdio_headers.
#[local] Existing Instance sim_stdio.

(** A lock, an unlock and a write to the standard output leave both
    handles with their streams, and the first one locked. *)
Lemma calls_keep_handles_witness :
  ∃ w', perform_all example_world
          [(Ptr 1, LockFileEx_call 0 0 0 0 null); (Ptr 1, UnlockFile_call 0 0 0 0);
           (Ptr 2, Write_call [Byte.x64] 1 nonnull null)] = Some w' ∧
    strings w' = strings example_world ∧
    files w' !! 4%positive = None ∧
    files w' !! 1%positive = Some (set_bLocked true (example_record 10 4 1)) ∧
    (files w' !! 2%positive = Some (example_record 10 2 2) ∨
     files w' !! 2%positive = Some (set_bLocked true (example_record 10 2 2))).
Proof.
  destruct (perform_all example_world
              [(Ptr 1, LockFileEx_call 0 0 0 0 null); (Ptr 1, UnlockFile_call 0 0 0 0);
               (Ptr 2, Write_call [Byte.x64] 1 nonnull null)]) as [w'|] eqn:Hrun;
    [|vm_compute in Hrun; discriminate].
  destruct (calls_keep_handles _ _ _ Hrun) as (Hstrings & Hnone & Hsome).
  exists w'. split; [reflexivity|]. split; [exact Hstrings|].
  split; [apply Hnone; reflexivity|]. split.
  - assert (Hrun' := Hrun). vm_compute in Hrun'. by simplify_eq.
  - exact (proj1 (Hsome 2%positive (example_record 10 2 2) eq_refl)).
Defined.

(** A short read when [errno] is EWOULDBLOCK sets the last error. *)
Lemma calls_set_two_errors_witness :
  ∃ w', perform_all contended_world [(Ptr 1, Read_call 5 nonnull null)] = Some w' ∧
    LastError w' = 232 ∧
    (LastError w' = LastError contended_world ∨
     (LastError w' = ERROR_NO_DATA ∧
        ∃ handle n count overlapped,
          (handle, Read_call n count overlapped) ∈ [(Ptr 1, Read_call 5 nonnull null)]) ∨
     (LastError w' = ERROR_INVALID_HANDLE ∧
        ∃ handle, (handle, GetFd_call) ∈ [(Ptr 1, Read_call 5 nonnull null)])).
Proof.
  destruct (perform_all contended_world [(Ptr 1, Read_call 5 nonnull null)])
    as [w'|] eqn:Hrun; [|vm_compute in Hrun; discriminate].
  exists w'. split; [reflexivity|]. split.
  - assert (Hrun' := Hrun). vm_compute in Hrun'. by simplify_eq.
  - exact (calls_set_two_errors _ _ _ Hrun).
Defined.

(** "new.txt" is created and closed again. *)
Lemma create_then_close_witness :
  ∃ w1 w2,
    FileCreateFileA example_world "new.txt" GENERIC_WRITE 0 0 CREATE_ALWAYS 0 NULL
      = Some (Ptr 4, w1) ∧
    FileCloseHandle w1 (Ptr 4) = Some (true, w2) ∧
    files w2 = files example_world ∧ strings w2 = strings example_world.
Proof.
  destruct (FileCreateFileA example_world "new.txt" GENERIC_WRITE 0 0 CREATE_ALWAYS 0 NULL)
    as [[h w1]|] eqn:Hrun; [|vm_compute in Hrun; discriminate].
  assert (h = Ptr 4) as ->.
  { assert (Hrun' := Hrun). vm_compute in Hrun'. by simplify_eq. }
  destruct (create_then_close _ _ _ _ _ _ _ _ _ _ Hrun) as (w2 & Hclose & Hf & Hs & _).
  exists w1, w2. done.
Defined.

(** With both share flags the new handle is locked, with none it is not. *)
Lemma created_handle_lock_state_witness :
  (∃ w1,
     FileCreateFileA example_world "new.txt" GENERIC_WRITE 3 0 CREATE_ALWAYS 0 NULL
       = Some (Ptr 4, w1) ∧
     FileLockFileEx w1 (Ptr 4) 0 0 0 0 null = Some (false, WLog_ERR already_locked w1)) ∧
  (∃ w1,
     FileCreateFileA example_world "new.txt" GENERIC_WRITE 0 0 CREATE_ALWAYS 0 NULL
       = Some (Ptr 4, w1) ∧
     FileUnlockFile w1 (Ptr 4) 0 0 0 0 = Some (false, WLog_ERR not_locked w1)).
Proof.
  split.
  - destruct (FileCreateFileA example_world "new.txt" GENERIC_WRITE 3 0 CREATE_ALWAYS 0 NULL)
      as [[h w1]|] eqn:Hrun; [|vm_compute in Hrun; discriminate].
    assert (h = Ptr 4) as ->.
    { assert (Hrun' := Hrun). vm_compute in Hrun'. by simplify_eq. }
    destruct (created_handle_lock_state _ _ _ _ _ _ _ _ _ _ Hrun) as (Hlocked & _).
    exists w1. split; [reflexivity|]. apply Hlocked. vm_compute. discriminate.
  - destruct (FileCreateFileA example_world "new.txt" GENERIC_WRITE 0 0 CREATE_ALWAYS 0 NULL)
      as [[h w1]|] eqn:Hrun; [|vm_compute in Hrun; discriminate].
    assert (h = Ptr 4) as ->.
    { assert (Hrun' := Hrun). vm_compute in Hrun'. by simplify_eq. }
    destruct (created_handle_lock_state _ _ _ _ _ _ _ _ _ _ Hrun) as (_ & Hunlocked).
    exists w1. split; [reflexivity|].
    exact (proj1 (Hunlocked eq_refl 0 0 0 0 0 null)).
Defined.

(** A file that does not exist is not opened, and the last error stays 0;
    without memory the last error is ERROR_NOT_ENOUGH_MEMORY. *)
Lemma FileCreateFileA_reports_memory_only_witness :
  (∃ w1,
     FileCreateFileA example_world "missing.txt" 0 0 0 OPEN_EXISTING 0 NULL
       = Some (INVALID_HANDLE_VALUE, w1) ∧ LastError w1 = 0) ∧
  (∃ w1,
     FileCreateFileA (with_os (sim_with_streams ∅ [] (sim_allocate example_os).2) example_world)
       "log.txt" 0 0 0 OPEN_EXISTING 0 NULL
       = Some (INVALID_HANDLE_VALUE, w1) ∧ LastError w1 = 8).
Proof.
  split.
  - destruct (FileCreateFileA example_world "missing.txt" 0 0 0 OPEN_EXISTING 0 NULL)
      as [[h w1]|] eqn:Hrun; [|vm_compute in Hrun; discriminate].
    assert (h = INVALID_HANDLE_VALUE) as ->.
    { assert (Hrun' := Hrun). vm_compute in Hrun'. by simplify_eq. }
    destruct (FileCreateFileA_reports_memory_only _ _ _ _ _ _ _ _ _ _ Hrun) as (_ & Hkept).
    exists w1. split; [reflexivity|]. apply Hkept; reflexivity.
  - destruct (FileCreateFileA
                (with_os (sim_with_streams ∅ [] (sim_allocate example_os).2) example_world)
                "log.txt" 0 0 0 OPEN_EXISTING 0 NULL)
      as [[h w1]|] eqn:Hrun; [|vm_compute in Hrun; discriminate].
    destruct (FileCreateFileA_reports_memory_only _ _ _ _ _ _ _ _ _ _ Hrun) as (Hmemory & _).
    destruct Hmemory as [-> Herr]; [right; reflexivity|].
    exists w1. split; [reflexivity|exact Herr].
Defined.

(** CREATE_NEW on "log.txt", which exists, returns a handle, as
    CREATE_ALWAYS with write access does. *)
Lemma FileCreateFileA_by_mode_only_witness :
  ∃ w1 w2,
    FileCreateFileA example_world "log.txt" 0 0 0 CREATE_NEW 0 NULL = Some (Ptr 4, w1) ∧
    FileCreateFileA example_world "log.txt" GENERIC_WRITE 0 7 CREATE_ALWAYS 128 (Ptr 1)
      = Some (Ptr 4, w2) ∧
    os w1 = os w2.
Proof.
  assert (Hmode : FileGetMode 0 CREATE_NEW = FileGetMode GENERIC_WRITE CREATE_ALWAYS)
    by (vm_compute; reflexivity).
  destruct (FileCreateFileA_by_mode_only example_world "log.txt" 0
              0 0 CREATE_NEW 0 NULL GENERIC_WRITE 7 CREATE_ALWAYS 128 (Ptr 1) Hmode)
    as (h & w1 & w2 & Hrun1 & Hrun2 & Hos & _).
  assert (h = Ptr 4) as ->.
  { assert (Hrun' := Hrun1). vm_compute in Hrun'. by simplify_eq. }
  exists w1, w2. done.
Defined.

(** After the handle at address 1 is closed, a read through it is
    undefined, a read with an OVERLAPPED structure is refused. *)
Lemma closed_handle_is_dangling_witness :
  ∃ w', FileCloseHandle example_world (Ptr 1) = Some (true, w') ∧
    FileCloseHandle w' (Ptr 1) = None ∧
    FileRead w' (Ptr 1) 3 nonnull null = None ∧
    FileRead w' (Ptr 1) 3 nonnull nonnull
      = Some (refused, WLog_ERR overlapping_not_supported w') ∧
    FileSetFilePointer w' (Ptr 1) 0 null 7 = Some (INVALID_SET_FILE_POINTER, w').
Proof.
  destruct (FileCloseHandle example_world (Ptr 1)) as [[b w']|] eqn:Hrun;
    [|vm_compute in Hrun; discriminate].
  assert (b = true) as ->.
  { assert (Hrun' := Hrun). vm_compute in Hrun'. by simplify_eq. }
  destruct (closed_handle_is_dangling _ _ _ Hrun)
    as (Hclose & _ & Hread & _ & _ & _ & _ & _ & _ & _ & Hseek).
  exists w'. split; [reflexivity|]. split; [exact Hclose|].
  split; [exact (Hread 3 nonnull null)|]. split; [exact (Hread 3 nonnull nonnull)|].
  exact (Hseek 0 null 7).
Defined.

Lemma zero_bytes_fail_witness :
  (∃ r w', FileRead example_world (Ptr 1) 0 nonnull null = Some (r, w') ∧
     read_status r = false) ∧
  (∃ w', FileWrite example_world (Ptr 1) [] 0 nonnull null = Some (false, None, w')).
Proof.
  exact (zero_bytes_fail example_world 1%positive (example_record 10 4 1) 4%positive []
           nonnull eq_refl eq_refl).
Defined.

(** Five bytes asked of a file of three: with [errno] at EWOULDBLOCK the
    last error is ERROR_NO_DATA, with [errno] at 0 it stays; with an
    OVERLAPPED structure it stays although [errno] is EWOULDBLOCK. *)
Lemma FileRead_last_error_witness :
  (∃ r w', FileRead contended_world (Ptr 1) 5 nonnull null = Some (r, w') ∧
     LastError w' = ERROR_NO_DATA) ∧
  (∃ r w', FileRead example_world (Ptr 1) 5 nonnull null = Some (r, w') ∧
     LastError w' = 0) ∧
  (∃ r w', FileRead contended_world (Ptr 1) 5 nonnull nonnull = Some (r, w') ∧
     errno (os w') = EWOULDBLOCK ∧ LastError w' = 0).
Proof.
  split; [|split].
  - destruct (FileRead contended_world (Ptr 1) 5 nonnull null) as [[r w']|] eqn:Hrun;
      [|vm_compute in Hrun; discriminate].
    destruct (FileRead_last_error contended_world 1%positive (example_record 10 4 1)
                4%positive 5 nonnull null r w' eq_refl eq_refl Hrun) as [Hnull _].
    destruct (Hnull eq_refl) as [Hos Herr].
    exists r, w'. split; [reflexivity|]. rewrite Herr, Hos.
    assert (read_status r = false) as ->.
    { assert (Hrun' := Hrun). vm_compute in Hrun'. by simplify_eq. }
    reflexivity.
  - destruct (FileRead example_world (Ptr 1) 5 nonnull null) as [[r w']|] eqn:Hrun;
      [|vm_compute in Hrun; discriminate].
    destruct (FileRead_last_error example_world 1%positive (example_record 10 4 1)
                4%positive 5 nonnull null r w' eq_refl eq_refl Hrun) as [Hnull _].
    destruct (Hnull eq_refl) as [Hos Herr].
    exists r, w'. split; [reflexivity|]. rewrite Herr, Hos.
    assert (read_status r = false) as ->.
    { assert (Hrun' := Hrun). vm_compute in Hrun'. by simplify_eq. }
    reflexivity.
  - destruct (FileRead contended_world (Ptr 1) 5 nonnull nonnull) as [[r w']|] eqn:Hrun;
      [|vm_compute in Hrun; discriminate].
    destruct (FileRead_last_error contended_world 1%positive (example_record 10 4 1)
                4%positive 5 nonnull nonnull r w' eq_refl eq_refl Hrun) as [_ Hoverlapped].
    destruct (Hoverlapped eq_refl) as (_ & Hos & Herr & _).
    exists r, w'. split; [reflexivity|]. rewrite Hos, Herr. split; reflexivity.
Defined.

(** The file of three bytes has size 3, and the stream is where it was. *)
Lemma FileGetFileSize_outcome_witness :
  ∃ w', FileGetFileSize example_world (Ptr 1) nonnull = Some (3, Some 0, w') ∧
    LastError w' = 0 ∧ sim_position (os w') = 0.
Proof.
  destruct (FileGetFileSize example_world (Ptr 1) nonnull) as [[[r h] w']|] eqn:Hrun;
    [|vm_compute in Hrun; discriminate].
  pose proof (FileGetFileSize_outcome example_world 1%positive (example_record 10 4 1)
                4%positive nonnull r h w' eq_refl eq_refl Hrun) as [Herr Hout].
  destruct Hout as [(_ & _ & _ & _ & Hr & _ & _ & Hh & Hos)|(Hfail & _)].
  - vm_compute in Hr. vm_compute in Hh. subst r h.
    exists w'. split; [reflexivity|]. split; [exact Herr|].
    rewrite Hos. vm_compute. reflexivity.
  - exfalso. vm_compute in Hfail. destruct Hfail as [?|[?|[?|?]]]; done.
Defined.

(** One byte past the end of the file of three is position 4; move method 7
    is none. *)
Lemma FileSetFilePointer_outcome_witness :
  (∃ w', FileSetFilePointer example_world (Ptr 1) 1 nonnull FILE_END = Some (4, w') ∧
     FileSetFilePointer example_world (Ptr 1) 1 null FILE_END = Some (4, w')) ∧
  FileSetFilePointer example_world (Ptr 1) 1 nonnull 7
    = Some (INVALID_SET_FILE_POINTER, example_world).
Proof.
  split.
  - destruct (FileSetFilePointer example_world (Ptr 1) 1 nonnull FILE_END)
      as [[r w']|] eqn:Hrun; [|vm_compute in Hrun; discriminate].
    destruct (FileSetFilePointer_outcome example_world 1%positive (example_record 10 4 1)
                4%positive 1 nonnull FILE_END r w' eq_refl eq_refl Hrun) as [Hnull _].
    assert (r = 4) as ->.
    { assert (Hrun' := Hrun). vm_compute in Hrun'. by simplify_eq. }
    exists w'. done.
  - destruct (FileSetFilePointer example_world (Ptr 1) 1 nonnull 7)
      as [[r w']|] eqn:Hrun; [|vm_compute in Hrun; discriminate].
    destruct (FileSetFilePointer_outcome example_world 1%positive (example_record 10 4 1)
                4%positive 1 nonnull 7 r w' eq_refl eq_refl Hrun) as (_ & Hnone & _).
    destruct Hnone as [-> ->]; [|reflexivity].
    apply (bool_decide_unpack _). vm_compute. exact I.
Defined.

(** A handle that is locked is not lockable after an unlock. *)
Lemma lock_is_for_life_witness :
  let w := store 1%positive (set_bLocked true (example_record 10 4 1)) example_world in
  ∃ w', perform_all w [(Ptr 1, UnlockFile_call 0 0 0 0)] = Some w' ∧
    FileLockFileEx w' (Ptr 1) 0 0 0 0 null = Some (false, WLog_ERR already_locked w').
Proof.
  cbn zeta.
  destruct (perform_all
              (store 1%positive (set_bLocked true (example_record 10 4 1)) example_world)
              [(Ptr 1, UnlockFile_call 0 0 0 0)]) as [w'|] eqn:Hrun;
    [|vm_compute in Hrun; discriminate].
  exists w'. split; [reflexivity|].
  assert (Hfile : files (store 1%positive (set_bLocked true (example_record 10 4 1))
                           example_world) !! 1%positive
                  = Some (set_bLocked true (example_record 10 4 1)))
    by (vm_compute; reflexivity).
  exact (lock_is_for_life _ _ _ 1%positive (set_bLocked true (example_record 10 4 1))
           Hfile eq_refl Hrun 0 0 0 0 null).
Defined.

(** The tick count of 1970-01-01 as the access time. *)
Lemma given_time_is_set_witness :
  let ft := FILETIME_of_ticks 116444736000000000 in
  st_atim (times_after Futimens (sim_clock example_os) (sim_status example_os) (Some ft) None)
    = {| tv_sec := 1164447243; tv_nsec := 5552640 |}.
Proof.
  cbn zeta.
  assert (Homit : ¬ (0 ≤ UTIME_OMIT < 10 ^ 7)) by (cbn; lia).
  assert (Hnow : ¬ (0 ≤ UTIME_NOW < 10 ^ 7)) by (cbn; lia).
  destruct (given_time_is_set (sim_clock example_os) (sim_status example_os)
              (FILETIME_of_ticks 116444736000000000) None Homit Hnow) as (Hatime & _).
  rewrite Hatime. vm_compute. reflexivity.
Defined.

(** The handle on the standard output is closed and stream 2 stays open. *)
Lemma std_handle_close_witness :
  ∃ w1 w2, GetStdHandle example_world STD_OUTPUT_HANDLE = Some (Ptr 4, w1) ∧
    FileCloseHandle w1 (Ptr 4) = Some (true, w2) ∧
    files w2 = files example_world ∧ strings w2 = strings example_world ∧
    sim_streams (os w2) = sim_streams example_os.
Proof.
  destruct (GetStdHandle example_world STD_OUTPUT_HANDLE) as [[h w1]|] eqn:Hrun;
    [|vm_compute in Hrun; discriminate].
  assert (h = Ptr 4 ∧ sim_streams (os w1) = sim_streams example_os) as [-> Hstreams].
  { assert (Hrun' := Hrun). vm_compute in Hrun'. by simplify_eq. }
  destruct (std_handle_close _ _ _ _ Hrun) as (stream & w2 & Hin & Hclose & Hf & Hs & _ & _ & Hos).
  exists w1, w2. split; [reflexivity|]. split; [exact Hclose|]. split; [exact Hf|].
  split; [exact Hs|]. rewrite Hos.
  assert (Hlow : ∀ s, s ∈ [1%positive; 2%positive; 3%positive] →
            (fileno s (os w1) >? 2) = false).
  { intros s Hs1.
    change (fileno s (os w1)) with (default (-1) (sim_streams (os w1) !! s)).
    rewrite Hstreams.
    repeat (apply elem_of_cons in Hs1 as [->|Hs1]; [vm_compute; reflexivity|]).
    by apply elem_of_nil in Hs1. }
  rewrite (Hlow stream Hin). exact Hstreams.
Defined.

(** Descriptor 3 is adopted on a new stream 5, which the close closes. *)
Lemma descriptor_handle_close_witness :
  ∃ w1 w2, GetFileHandleForFileDescriptor example_world 3 = Some (Ptr 4, w1) ∧
    sim_streams (os w1) !! 5%positive = Some 3 ∧
    FileCloseHandle w1 (Ptr 4) = Some (true, w2) ∧
    files w2 = files example_world ∧ strings w2 = strings example_world ∧
    sim_streams (os w2) = sim_streams example_os.
Proof.
  destruct (GetFileHandleForFileDescriptor example_world 3) as [[h w1]|] eqn:Hrun;
    [|vm_compute in Hrun; discriminate].
  assert (h = Ptr 4 ∧ sim_streams (os w1) = <[5%positive := 3]> (sim_streams example_os))
    as [-> Hstreams].
  { assert (Hrun' := Hrun). vm_compute in Hrun'. by simplify_eq. }
  destruct (descriptor_handle_close _ _ _ _ Hrun)
    as (s & w2 & Hs & Hclose & Hf & Hstr & _ & _ & Hos).
  assert (s = 5%positive) as ->.
  { assert (Hs' := Hs). vm_compute in Hs'. by simplify_eq. }
  exists w1, w2. split; [reflexivity|]. split; [rewrite Hstreams; reflexivity|].
  split; [exact Hclose|]. split; [exact Hf|]. split; [exact Hstr|].
  rewrite Hos.
  assert ((fileno 5%positive (os w1) >? 2) = true) as ->.
  { change (fileno 5%positive (os w1)) with (default (-1) (sim_streams (os w1) !! 5%positive)).
    rewrite Hstreams. vm_compute. reflexivity. }
  change (sim_streams (fclose 5%positive (os w1)))
    with (delete 5%positive (sim_streams (os w1))).
  rewrite Hstreams. vm_compute. reflexivity.
Defined.

(** Descriptor 3 when no memory is left: [fdopen] makes stream 5, [calloc]
    fails, the last error is ERROR_NOT_ENOUGH_MEMORY and stream 5 is still
    open on descriptor 3. *)
Lemma descriptor_handle_outcome_witness :
  let w := with_os (sim_allocate (sim_allocate example_os).2).2 example_world in
  ∃ w1, GetFileHandleForFileDescriptor w 3 = Some (INVALID_HANDLE_VALUE, w1) ∧
    LastError w1 = ERROR_NOT_ENOUGH_MEMORY ∧
    sim_streams (os w1) !! 5%positive = Some 3.
Proof.
  cbn zeta.
  destruct (descriptor_handle_outcome
              (with_os (sim_allocate (sim_allocate example_os).2).2 example_world) 3)
    as (h & w1 & Hrun & _ & _ & _ & _ & Hopened).
  destruct (Hopened 5%positive) as [Hfails _];
    [vm_compute; reflexivity | vm_compute; reflexivity |].
  destruct Hfails as (-> & Herr & Hos); [vm_compute; reflexivity|].
  exists w1. split; [exact Hrun|]. split; [exact Herr|].
  rewrite Hos. vm_compute. reflexivity.
Defined.

End MoreRuns.
